(** * siq2json2: the package converter of [src/bin/index.ts]

    A shallow embedding of the archive-entry filename recovery ([unzip]),
    of the schema mapper ([convertToJSON]) and of the top-level promise
    chain, followed by the properties of the specification that concern
    them.

    Conventions of the embedding.
    - A JavaScript string is a [string]: the bytes of its UTF-8 encoding.
    - A JavaScript number is a [jsnum]; [parseInt] only ever produces NaN,
      a signed zero, an infinity or an integer-valued double.
    - The object [q] that the mapper mutates in place is threaded through
      the steps explicitly.
    - A thrown exception and the lines written by [console.warn] are the
      two effects of the mapper; they live in the monad [M]. *)

From Stdlib Require Import ZArith List String Ascii Bool Lia.
Import ListNotations.

Local Open Scope string_scope.
Local Open Scope Z_scope.

(* ================================================================== *)
(** * JavaScript values and built-ins used by the program *)
(* ================================================================== *)

Module JS.

(** The values a string-typed property can hold at run time: a string, or
    [undefined] when the property (or array index) is missing. *)
Inductive jsval : Type :=
| JUndefined
| JString (s : string).

(** The numbers [parseInt] can return. [Num z] is the double whose value
    is the integer [z]; the sign of a zero is kept apart. *)
Inductive jsnum : Type :=
| NaN
| NegZero
| Infinity (negative : bool)
| Num (z : Z).

(** Exceptions the modelled code can raise. [TypeError p] is the error of
    reading property [p] of [undefined]. *)
Inductive exn : Type :=
| TypeError (prop : string)
| URIError.

Inductive result (A : Type) : Type :=
| Ok (a : A)
| Throw (e : exn).
Arguments Ok {A} a.
Arguments Throw {A} e.

Definition is_ok {A} (r : result A) : bool :=
  match r with Ok _ => true | Throw _ => false end.

Definition code (c : ascii) : Z := Z.of_N (N_of_ascii c).

(** ** [parseInt(s, 10)] (ECMAScript, parseInt) *)

(** One-byte members of StrWhiteSpaceChar: TAB, LF, VT, FF, CR, SP. *)
Definition is_ascii_ws (c : ascii) : bool :=
  let n := code c in
  ((9 <=? n) && (n <=? 13)) || (n =? 32).

(** U+00A0, encoded on two bytes. *)
Definition is_ws2 (a b : ascii) : bool :=
  (code a =? 194) && (code b =? 160).

(** Three-byte members: U+1680, U+2000..U+200A, U+2028, U+2029, U+202F,
    U+205F, U+3000 and U+FEFF. *)
Definition is_ws3 (a b c : ascii) : bool :=
  let x := code a in let y := code b in let z := code c in
  ((x =? 225) && (y =? 154) && (z =? 128))
  || ((x =? 226) && (y =? 128)
      && (((128 <=? z) && (z <=? 138)) || (z =? 168) || (z =? 169) || (z =? 175)))
  || ((x =? 226) && (y =? 129) && (z =? 159))
  || ((x =? 227) && (y =? 128) && (z =? 128))
  || ((x =? 239) && (y =? 187) && (z =? 191)).

(** Step 2 of parseInt: drop the leading white space. *)
Fixpoint trim_start (s : string) : string :=
  match s with
  | EmptyString => s
  | String a r1 =>
    if is_ascii_ws a then trim_start r1
    else
      match r1 with
      | EmptyString => s
      | String b r2 =>
        if is_ws2 a b then trim_start r2
        else
          match r2 with
          | EmptyString => s
          | String c r3 => if is_ws3 a b c then trim_start r3 else s
          end
      end
  end.

Definition is_digit (c : ascii) : bool :=
  (48 <=? code c) && (code c <=? 57).

(** The longest prefix of decimal digits, most significant first. *)
Fixpoint leading_digits (s : string) : list Z :=
  match s with
  | EmptyString => []
  | String c r => if is_digit c then (code c - 48) :: leading_digits r else []
  end.

Definition digits_value (ds : list Z) : Z :=
  fold_left (fun acc d => 10 * acc + d) ds 0.

(** The double nearest to the positive integer [m] (ties to even), as an
    integer, or [None] when it overflows the finite range. *)
Definition round_to_double (m : Z) : option Z :=
  let e := Z.log2 m in
  if e <? 53 then Some m
  else
    let sh := e - 52 in
    let q := Z.shiftr m sh in
    let r := Z.land m (Z.ones sh) in
    let half := Z.shiftl 1 (sh - 1) in
    let q' := if (half <? r) || ((r =? half) && Z.odd q) then q + 1 else q in
    let v := Z.shiftl q' sh in
    if Z.shiftl 1 1024 <=? v then None else Some v.

Definition parseInt10 (s : string) : jsnum :=
  let t := trim_start s in
  let '(negative, body) :=
    match t with
    | String c r =>
      if Ascii.eqb c "-" then (true, r)
      else if Ascii.eqb c "+" then (false, r)
      else (false, t)
    | EmptyString => (false, t)
    end in
  match leading_digits body with
  | [] => NaN
  | ds =>
    let m := digits_value ds in
    if m =? 0 then (if negative then NegZero else Num 0)
    else
      match round_to_double m with
      | None => Infinity negative
      | Some v => Num (if negative then - v else v)
      end
  end.

(** ** [decodeURIComponent] (ECMAScript, Decode with an empty reserved set) *)

Definition hex_value (c : ascii) : option Z :=
  let n := code c in
  if (48 <=? n) && (n <=? 57) then Some (n - 48)
  else if (65 <=? n) && (n <=? 70) then Some (n - 55)
  else if (97 <=? n) && (n <=? 102) then Some (n - 87)
  else None.

Definition byte_char (b : Z) : ascii := ascii_of_N (Z.to_N b).

Fixpoint bytes_string (bs : list Z) : string :=
  match bs with
  | [] => EmptyString
  | b :: r => String (byte_char b) (bytes_string r)
  end.

(** An escape [%XY] at the head of [s]: its octet and what follows it. *)
Definition read_escape (s : string) : option (Z * string) :=
  match s with
  | String c (String h1 (String h2 r)) =>
    if Ascii.eqb c "%" then
      match hex_value h1, hex_value h2 with
      | Some a, Some b => Some (16 * a + b, r)
      | _, _ => None
      end
    else None
  | _ => None
  end.

(** [k] further escapes, each an octet of the form 10xxxxxx. *)
Fixpoint read_continuations (k : nat) (s : string) : option (list Z * string) :=
  match k with
  | O => Some ([], s)
  | S k' =>
    match read_escape s with
    | Some (b, r) =>
      if (128 <=? b) && (b <=? 191) then
        match read_continuations k' r with
        | Some (bs, r') => Some (b :: bs, r')
        | None => None
        end
      else None
    | None => None
    end
  end.

(** Number of leading 1 bits of an octet. *)
Definition leading_ones (b : Z) : nat :=
  if b <? 128 then 0
  else if b <? 192 then 1
  else if b <? 224 then 2
  else if b <? 240 then 3
  else if b <? 248 then 4
  else 5.

(** The code point a leading octet and its continuation octets encode. *)
Definition utf8_code_point (b : Z) (conts : list Z) : Z :=
  let lead :=
    match conts with
    | [_] => b - 192
    | [_; _] => b - 224
    | _ => b - 240
    end in
  fold_left (fun acc c => 64 * acc + (c - 128)) conts lead.

(** Shortest-form encodings of code points that are not surrogates. *)
Definition utf8_valid (b : Z) (conts : list Z) : bool :=
  let v := utf8_code_point b conts in
  match conts with
  | [_] => 128 <=? v
  | [_; _] => (2048 <=? v) && negb ((55296 <=? v) && (v <=? 57343))
  | [_; _; _] => (65536 <=? v) && (v <=? 1114111)
  | _ => false
  end.

(** The decoding loop. The fuel bounds the number of iterations; each one
    consumes at least one character, so [String.length s] iterations
    always suffice ([decode_fuel_enough] below). *)
Fixpoint decode (fuel : nat) (s : string) : option (result string) :=
  match s with
  | EmptyString => Some (Ok EmptyString)
  | String c r =>
    match fuel with
    | O => None
    | S fuel' =>
      let continue (out : string) (rest : string) :=
        match decode fuel' rest with
        | Some (Ok t) => Some (Ok (out ++ t))
        | other => other
        end in
      if Ascii.eqb c "%" then
        match read_escape s with
        | None => Some (Throw URIError)
        | Some (b, r1) =>
          match leading_ones b with
          | O => continue (String (byte_char b) EmptyString) r1
          | S O => Some (Throw URIError)
          | S (S n2) =>
            if Nat.ltb 2 n2 then Some (Throw URIError)
            else
              match read_continuations (S n2) r1 with
              | None => Some (Throw URIError)
              | Some (conts, r2) =>
                if utf8_valid b conts
                then continue (bytes_string (b :: conts)) r2
                else Some (Throw URIError)
              end
          end
        end
      else continue (String c EmptyString) r
    end
  end.

Definition decodeURIComponent (s : string) : result string :=
  match decode (String.length s) s with
  | Some r => r
  | None => Throw URIError
  end.

(** ** [String.prototype.replace('@', '')]: a string pattern replaces its
    first occurrence only. *)
Fixpoint replace_at (s : string) : string :=
  match s with
  | EmptyString => EmptyString
  | String c r => if Ascii.eqb c "@" then r else String c (replace_at r)
  end.

End JS.


(* ================================================================== *)
(** * Library functions: [path.normalize] and the cp866 decoder *)
(* ================================================================== *)

Module Lib.

(** ** Node's [path.posix.normalize], at the level of path segments. *)

Fixpoint split_slash (s : string) : list string :=
  match s with
  | EmptyString => [EmptyString]
  | String c r =>
    if Ascii.eqb c "/" then EmptyString :: split_slash r
    else
      match split_slash r with
      | [] => [String c EmptyString]
      | h :: t => String c h :: t
      end
  end.

(** The segments kept so far are held last-first. *)
Definition push_segment (allowAboveRoot : bool) (kept : list string) (seg : string)
  : list string :=
  if (seg =? EmptyString)%string || (seg =? ".")%string then kept
  else if (seg =? "..")%string then
    match kept with
    | [] => if allowAboveRoot then [".."] else []
    | top :: below =>
      if (top =? "..")%string then
        (if allowAboveRoot then ".." :: kept else kept)
      else below
    end
  else seg :: kept.

Definition normalizeString (path : string) (allowAboveRoot : bool) : string :=
  String.concat "/" (rev (fold_left (push_segment allowAboveRoot) (split_slash path) [])).

Fixpoint ends_with_slash (s : string) : bool :=
  match s with
  | EmptyString => false
  | String c EmptyString => Ascii.eqb c "/"
  | String _ r => ends_with_slash r
  end.

Definition posix_normalize (path : string) : string :=
  match path with
  | EmptyString => "."
  | String c _ =>
    let isAbsolute := Ascii.eqb c "/" in
    let trailingSeparator := ends_with_slash path in
    let res := normalizeString path (negb isAbsolute) in
    match res with
    | EmptyString =>
      if isAbsolute then "/" else if trailingSeparator then "./" else "."
    | _ =>
      let res' := if trailingSeparator then res ++ "/" else res in
      if isAbsolute then "/" ++ res' else res'
    end
  end.

(** ** iconv-lite's [decode(buffer, 'cp866')] *)

(** Code points of the bytes 0xB0..0xDF (box drawing and blocks). *)
Definition cp866_box : list Z :=
  [ 9617; 9618; 9619; 9474; 9508; 9569; 9570; 9558;
    9557; 9571; 9553; 9559; 9565; 9564; 9563; 9488;
    9492; 9524; 9516; 9500; 9472; 9532; 9566; 9567;
    9562; 9556; 9577; 9574; 9568; 9552; 9580; 9575;
    9576; 9572; 9573; 9561; 9560; 9554; 9555; 9579;
    9578; 9496; 9484; 9608; 9604; 9612; 9616; 9600 ].

(** Code points of the bytes 0xF0..0xFF. *)
Definition cp866_high : list Z :=
  [ 1025; 1105; 1028; 1108; 1031; 1111; 1038; 1118;
    176; 8729; 183; 8730; 8470; 164; 9632; 160 ].

Definition cp866_code_point (b : Z) : Z :=
  if b <? 128 then b
  else if b <? 176 then 1040 + (b - 128)
  else if b <? 224 then nth (Z.to_nat (b - 176)) cp866_box 0
  else if b <? 240 then 1088 + (b - 224)
  else nth (Z.to_nat (b - 240)) cp866_high 0.

(** UTF-8 encoding of a code point of the Basic Multilingual Plane. *)
Definition utf8_encode (v : Z) : string :=
  if v <? 128 then JS.bytes_string [v]
  else if v <? 2048 then JS.bytes_string [192 + v / 64; 128 + v mod 64]
  else JS.bytes_string [224 + v / 4096; 128 + (v / 64) mod 64; 128 + v mod 64].

Fixpoint cp866_decode (buffer : list Byte.byte) : string :=
  match buffer with
  | [] => EmptyString
  | b :: r => utf8_encode (cp866_code_point (Z.of_N (Byte.to_N b))) ++ cp866_decode r
  end.

End Lib.

(* ================================================================== *)
(** * Archive extractor: filename recovery (lines 50-55) *)
(* ================================================================== *)

Module Extractor.

(** The fields of an unzipper [Entry] the recovery reads. [isUnicode] is
    what the test of line 52 sees; the parser in use keeps the Unicode
    flag of the archive elsewhere and leaves this property unset, in
    which case the test fails and [isUnicode] is [false]. [pathBuffer]
    holds the bytes of the name as they are stored in the archive, and
    [path] the text the parser makes of them. *)
Record Entry : Type := {
  isUnicode : bool;
  path : string;
  pathBuffer : list Byte.byte
}.

(** [decodedFileName]. *)
Definition decodedFileName (entry : Entry) : JS.result string :=
  JS.decodeURIComponent
    (if isUnicode entry
     then path entry
     else Lib.cp866_decode (pathBuffer entry)).

End Extractor.

(* ================================================================== *)
(** * Schema mapper: [unWrap] and [convertToJSON] (lines 70-192) *)
(* ================================================================== *)

Module Mapper.
Import JS.

(** ** Effects: exceptions and [console.warn] *)

(** A computation yields the warnings it printed, in order, and either a
    value or the exception that interrupted it. *)
Definition M (A : Type) : Type := (list string * result A)%type.

Definition ret {A} (a : A) : M A := ([], Ok a).

Definition throw {A} (e : exn) : M A := ([], Throw e).

Definition warn (line : string) : M unit := ([line], Ok tt).

Definition bind {A B} (c : M A) (k : A -> M B) : M B :=
  match c with
  | (w, Ok a) => let '(w', r) := k a in ((w ++ w')%list, r)
  | (w, Throw e) => (w, Throw e)
  end.

Notation "x <- c ;; k" := (bind c (fun x => k))
  (at level 61, c at next level, right associativity).

(** [array[0].prop]: reading [prop] of the first element throws when the
    array is empty. *)
Definition first {A} (array : list A) (prop : string) : M A :=
  match array with
  | a :: _ => ret a
  | [] => throw (TypeError prop)
  end.

(** [array[0]] read as a value: [undefined] past the end. *)
Definition first_or_undefined (array : list string) : jsval :=
  match array with
  | s :: _ => JString s
  | [] => JUndefined
  end.

(** [array[0]] of a property that may be missing: reading an index of
    [undefined] throws. *)
Definition first_of (array : option (list string)) : M jsval :=
  match array with
  | Some l => ret (first_or_undefined l)
  | None => throw (TypeError "0")
  end.

(** ** Input: the tree xml2js builds *)

(** Modelled from the spec: the declarations of [./types] ([SIGame.Package],
    [SIGame.RoundData], [SIGame.ThemeData], [SIGame.QuestionData],
    [SIGame.MediaScenario], [SIGame.Author]) are not among the sources. The
    records below hold the properties [convertToJSON] reads, each with the
    type its use requires: an element is an object, its attributes [$] and
    its text [_] are strings, its children are arrays. A child the parser
    leaves out when the document has none may be missing where that
    decides what the code does: [info], [type] and [comments] of a
    question, [info] and [authors] of the package, [param] of a type. For
    [right], [scenario], [atom], [rounds], [themes] and [questions] the
    empty list stands for the missing child: the code throws on either.
    The lists [round], [theme], [question], [answer] and [author], and
    the text of a parameter and of a structured entry, are taken to be
    present.

    A [param] element: [$.name] and its text [_]. *)
Record ParamData : Type := {
  param_name : string;
  param_text : string
}.

(** The [param] property of a type node, as [Array.isArray] sees it. *)
Inductive ParamField : Type :=
| ParamAbsent
| ParamNotArray (p : ParamData)
| ParamArray (ps : list ParamData).

Record TypeData : Type := {
  type_name : string;
  param : ParamField
}.

(** An info block. Its [comments] child is missing when the block holds
    no comment: the parser builds no empty array. *)
Record InfoData : Type := {
  comments : option (list string)
}.

(** A structured atom: [$.type] and its text [_]. *)
Record MediaScenario : Type := {
  media_type : string;
  media_text : string
}.

(** A scenario entry is a plain string or a structured object. *)
Inductive Atom : Type :=
| Literal (s : string)
| Media (m : MediaScenario).

Record ScenarioData : Type := {
  atom : list Atom
}.

Record RightData : Type := {
  answer : list string
}.

Record QuestionData : Type := {
  price : string;
  right : list RightData;
  info : option (list InfoData);
  qtype : option (list TypeData);
  scenario : list ScenarioData
}.

Record QuestionsData : Type := { question : list QuestionData }.

Record ThemeData : Type := {
  theme_name : string;
  questions : list QuestionsData
}.

Record ThemesData : Type := { theme : list ThemeData }.

Record RoundData : Type := {
  round_name : string;
  themes : list ThemesData
}.

Record RoundsData : Type := { round : list RoundData }.

Record Author : Type := { author : list string }.

Record PackageInfo : Type := { authors : option (list Author) }.

(** The package element. Its [info] child is missing when the document
    has no info element. *)
Record PackageData : Type := {
  pkg_id : string;
  pkg_name : string;
  pkg_version : string;
  pkg_difficulty : string;
  pkg_restriction : string;
  pkg_date : string;
  pkg_info : option (list PackageInfo);
  rounds : list RoundsData
}.

(** ** Output: the normalized document *)

(** Modelled from the spec: [Package] and [Round] are declared in
    [./types] too; their fields are those of the object literals of
    lines 84-102 and 180-191. *)

Record Task : Type := {
  text : string;
  images : list string;
  sounds : list string;
  video : list string
}.

Record Question : Type := {
  points : jsnum;
  mode : string;
  type : string;
  answers : list string;
  task : Task;
  explanation : jsval
}.

Record Theme : Type := {
  t_name : string;
  t_questions : list Question
}.

Record Round : Type := {
  r_name : string;
  r_themes : list Theme
}.

Record Metadata : Type := {
  version : string;
  createdBy : list string;
  difficulty : string;
  restriction : string;
  createdAt : string
}.

Record Package : Type := {
  id : string;
  name : string;
  p_rounds : list Round;
  metadata : Metadata
}.

(** ** Assignments to the fields of [q] *)

Definition set_points (n : jsnum) (q : Question) : Question :=
  {| points := n; mode := mode q; type := type q; answers := answers q;
     task := task q; explanation := explanation q |}.

Definition set_mode (m : string) (q : Question) : Question :=
  {| points := points q; mode := m; type := type q; answers := answers q;
     task := task q; explanation := explanation q |}.

Definition set_type (t : string) (q : Question) : Question :=
  {| points := points q; mode := mode q; type := t; answers := answers q;
     task := task q; explanation := explanation q |}.

Definition set_explanation (e : jsval) (q : Question) : Question :=
  {| points := points q; mode := mode q; type := type q; answers := answers q;
     task := task q; explanation := e |}.

Definition set_task (t : Task) (q : Question) : Question :=
  {| points := points q; mode := mode q; type := type q; answers := answers q;
     task := t; explanation := explanation q |}.

Definition set_text (s : string) (q : Question) : Question :=
  set_task {| text := s; images := images (task q); sounds := sounds (task q);
              video := video (task q) |} q.

Definition push_image (p : string) (q : Question) : Question :=
  set_task {| text := text (task q); images := images (task q) ++ [p];
              sounds := sounds (task q); video := video (task q) |} q.

Definition push_sound (p : string) (q : Question) : Question :=
  set_task {| text := text (task q); images := images (task q);
              sounds := sounds (task q) ++ [p]; video := video (task q) |} q.

Definition push_video (p : string) (q : Question) : Question :=
  set_task {| text := text (task q); images := images (task q);
              sounds := sounds (task q); video := video (task q) ++ [p] |} q.

(** ** [unWrap] (lines 70-75) *)

(** What [onEntry] returns, as [Array.isArray] sees it. *)
Inductive retrieved (B : Type) : Type :=
| NotArray (b : B)
| IsArray (bs : list B).
Arguments NotArray {B} b.
Arguments IsArray {B} bs.

Fixpoint reduce {A B} (onEntry : A -> M (retrieved B)) (array : list A) (acc : list B)
  : M (list B) :=
  match array with
  | [] => ret acc
  | entry :: rest =>
    retrievedEntry <- onEntry entry;;
    reduce onEntry rest
      match retrievedEntry with
      | IsArray bs => acc ++ bs
      | NotArray b => acc ++ [b]
      end
  end.

Definition unWrap {A B} (array : list A) (onEntry : A -> M (retrieved B)) : M (list B) :=
  reduce onEntry array [].

(** ** The question callback (lines 89-174) *)

Section Question.

(** [path.normalize] depends on the platform the converter runs on. *)
Variable normalize : string -> string.

(** Lines 116-125: one iteration of the loop over the parameters. *)
Definition applyParam (q : Question) (p : ParamData) : Question :=
  if (param_name p =? "cost")%string then set_points (parseInt10 (param_text p)) q
  else if (param_name p =? "theme")%string then set_explanation (JString (param_text p)) q
  else q.

(** Lines 109-131: the switch on the type name. *)
Definition applyType (t : TypeData) (q : Question) : Question :=
  let typeName := type_name t in
  if (typeName =? "cat")%string || (typeName =? "bagcat")%string then
    let q := set_mode "delegate" q in
    match param t with
    | ParamArray ps => fold_left applyParam ps q
    | _ => q
    end
  else set_mode typeName q.

Definition double_quote : ascii := ascii_of_nat 34.

(** The line of [console.warn] at line 151 (the closing quote is missing
    in the source). *)
Definition unhandled (kind : string) : string :=
  "Detected unhandled scenario type " ++ String double_quote kind
    ++ ". Please open a ticket to support it".

(** Lines 134-153. *)
Definition setQuestionMediaTask (mediaScenario : MediaScenario) (q : Question)
  : M Question :=
  let kind := media_type mediaScenario in
  if (kind =? "image")%string then
    ret (push_image (normalize (replace_at (media_text mediaScenario))) q)
  else if (kind =? "voice")%string then
    ret (push_sound (normalize (replace_at (media_text mediaScenario))) q)
  else if (kind =? "video")%string then
    ret (push_video (normalize (replace_at (media_text mediaScenario))) q)
  else if (kind =? "say")%string then
    ret (set_explanation (JString (media_text mediaScenario)) q)
  else if (kind =? "marker")%string then
    ret q
  else
    _ <- warn (unhandled kind);; ret q.

(** Lines 162-166: the body of the loop over the scenario entries. *)
Definition scenarioStep (scenario : Atom) (q : Question) : M Question :=
  match scenario with
  | Literal s => ret (set_text s q)
  | Media m => setQuestionMediaTask m q
  end.

(** Lines 161-167. *)
Fixpoint scenarioLoop (scenarioDetails : list Atom) (q : Question) : M Question :=
  match scenarioDetails with
  | [] => ret q
  | scenario :: rest =>
    q' <- scenarioStep scenario q;;
    scenarioLoop rest q'
  end.

(** Lines 156-171. The first case is the test
    [length === 1 && typeof scenarioDetails[0] === 'string']. In the last
    branch the array has at most one element: none, and reading [$] of
    [undefined] throws; or one, which is then not a string (a string has
    no [$], so reading its [type] would throw as well). *)
Definition resolveScenario (scenarioDetails : list Atom) (q : Question) : M Question :=
  match scenarioDetails with
  | [Literal s] => ret (set_text s q)
  | _ =>
    let q := set_type "media" q in
    if (1 <? Z.of_nat (List.length scenarioDetails)) then scenarioLoop scenarioDetails q
    else
      match scenarioDetails with
      | Media m :: _ => setQuestionMediaTask m q
      | Literal _ :: _ => throw (TypeError "type")
      | [] => throw (TypeError "$")
      end
  end.

Definition convertQuestion (question : QuestionData) : M Question :=
  right0 <- first (right question) "answer";;
  let q :=
    {| points := parseInt10 (price question);
       mode := "default";
       type := "plain";
       answers := answer right0;
       task := {| text := EmptyString; images := []; sounds := []; video := [] |};
       explanation := JString EmptyString |} in
  q <- match info question with
       | Some i =>
         info0 <- first i "comments";;
         comment0 <- first_of (comments info0);;
         ret (set_explanation comment0 q)
       | None => ret q
       end;;
  q <- match qtype question with
       | Some t =>
         type0 <- first t "$";;
         ret (applyType type0 q)
       | None => ret q
       end;;
  scenario0 <- first (scenario question) "atom";;
  resolveScenario (atom scenario0) q.

(** ** [convertToJSON] (lines 77-192) *)

Definition convertTheme (theme : ThemeData) : M Theme :=
  questions0 <- first (questions theme) "question";;
  qs <- unWrap (question questions0)
          (fun question => q <- convertQuestion question;; ret (NotArray q));;
  ret {| t_name := theme_name theme; t_questions := qs |}.

Definition convertRound (round : RoundData) : M Round :=
  themes0 <- first (themes round) "theme";;
  ts <- unWrap (theme themes0)
          (fun theme => t <- convertTheme theme;; ret (NotArray t));;
  ret {| r_name := round_name round; r_themes := ts |}.

Definition convertToJSON (gamePackage : PackageData) : M Package :=
  authorsInfo <-
    match pkg_info gamePackage with
    | Some info =>
      ret (find (fun entry => match authors entry with
                              | Some _ => true
                              | None => false
                              end) info)
    | None => throw (TypeError "find")
    end;;
  authors <- match authorsInfo with
             | Some {| authors := Some l |} =>
               unWrap l (fun obj => ret (IsArray (author obj)))
             | _ => ret []
             end;;
  rounds0 <- first (rounds gamePackage) "round";;
  gameRounds <- unWrap (round rounds0)
                  (fun round => r <- convertRound round;; ret (NotArray r));;
  ret {| id := pkg_id gamePackage;
         name := pkg_name gamePackage;
         p_rounds := gameRounds;
         metadata :=
           {| version := pkg_version gamePackage;
              createdBy := authors;
              difficulty := pkg_difficulty gamePackage;
              restriction := pkg_restriction gamePackage;
              createdAt := pkg_date gamePackage |} |}.

End Question.

End Mapper.

(* ================================================================== *)
(** * The process: precondition checks and the promise chain
      (lines 19-39 and 201-234) *)
(* ================================================================== *)

Module Pipeline.
Import JS.

(** The two properties of a rejection reason the handler reads. *)
Record Error : Type := {
  code : option string;
  message : string
}.

(** [error.code === c]; an error without [code] equals no string. *)
Definition code_is (error : Error) (c : string) : bool :=
  match code error with
  | Some c' => (c' =? c)%string
  | None => false
  end.

Inductive settled : Type :=
| Fulfilled
| Rejected (error : Error).

(** How the extraction ends. The promise of [unzip] listens to the Parse
    stream alone (lines 65-66) and settles on its [close] or [error]; an
    exception thrown by the [entry] listener comes out as an [error] of
    that stream. The read stream of the archive (line 48) and the write
    stream of each entry (line 63) have no [error] listener: an error of
    theirs is an uncaught exception, which ends the process. Such an
    error is taken to occur while the extraction is under way. *)
Inductive extraction : Type :=
| Settled (s : settled)
| Uncaught (error : Error).

(** What [xml2js.parseStringPromise] settles with. *)
Inductive parsed : Type :=
| ParseFailed (error : Error)
| Parsed (gamePackage : Mapper.PackageData).

(** Everything the run reads from its surroundings: the command line, the
    file system and the outcome of each asynchronous operation. *)
Record Environment : Type := {
  extname : string;            (* path.extname(relativePath) *)
  zipFilePath : string;
  zip_exists : bool;           (* fs.existsSync(zipFilePath) *)
  unzip : extraction;
  readFile : settled;
  parseString : parsed;
  writeFile : settled;         (* fs.writeFileSync of scenario.json *)
  renamed_exists : bool;       (* fs.existsSync(renamedFolder) *)
  rmdir : settled;
  rename : settled;
  unlink_content : settled;
  unlink_content_types : settled;
  removeDir_texts : settled
}.

(** A line on the error stream: [console.warn] of the mapper,
    [console.error] of a chalk-coloured text (its arguments are joined by
    chalk with a space), or the report the runtime prints for an
    uncaught exception. *)
Inductive line : Type :=
| Warning (text : string)
| Yellow (parts : list string)
| Red (parts : list string)
| Trace (error : Error).

Record Process : Type := {
  stderr : list line;
  exitCode : Z
}.

Section Run.

Variable normalize : string -> string.

(** The [message] of the TypeError an engine raises; its wording depends
    on the engine. *)
Variable describe : exn -> string.

(** A promise chain so far: the lines printed and how it settled. *)
Definition chain : Type := (list line * settled)%type.

(** [.then(f)]: [f] runs only when the chain so far is fulfilled. A
    rejection passes through untouched. *)
Definition andThen (p : chain) (f : chain) : chain :=
  match p with
  | (out, Fulfilled) => let '(out', s) := f in ((out ++ out')%list, s)
  | (out, Rejected e) => (out, Rejected e)
  end.

Definition step (s : settled) : chain := ([], s).

(** Lines 208-213: a TypeError thrown by [convertToJSON] rejects the
    chain; a TypeError carries no [code]. *)
Definition convertStage (env : Environment) : chain :=
  match parseString env with
  | ParseFailed e => step (Rejected e)
  | Parsed gamePackage =>
    match Mapper.convertToJSON normalize gamePackage with
    | (w, Throw e) =>
      (map Warning w, Rejected {| code := None; message := describe e |})
    | (w, Ok _) => (map Warning w, writeFile env)
    end
  end.

(** [Promise.allSettled] is fulfilled whatever its members do. *)
Definition allSettled (members : list settled) : settled := Fulfilled.

(** Lines 201-229, from the settlement of [unzip] on. *)
Definition promiseChain (env : Environment) (unzipped : settled) : chain :=
  andThen (step unzipped)
  (andThen (step (readFile env))
  (andThen (convertStage env)
  (andThen (step (if renamed_exists env then rmdir env else Fulfilled))
  (andThen (step (rename env))
           (step (allSettled [unlink_content env;
                              unlink_content_types env;
                              removeDir_texts env])))))).

(** Lines 230-234: the [catch] handler. *)
Definition catch (error : Error) : list line :=
  if negb (code_is error "ENOENT")
  then [Red ["Failed to parse the file: "; message error]]
  else [].

(** The whole program. [process.exit(1)] ends the process at once, an
    uncaught exception ends it with status 1, and a process that runs to
    the end of its event loop exits with status 0. *)
Definition run (env : Environment) : Process :=
  let extension :=
    if (extname env =? EmptyString)%string then ".siq" else extname env in
  if negb (extension =? ".siq")%string then
    {| stderr := [Yellow ["Unsupported file extension"]]; exitCode := 1 |}
  else if negb (zip_exists env) then
    {| stderr := [Yellow ["Unable to locate file at"; zipFilePath env]];
       exitCode := 1 |}
  else
    match unzip env with
    | Uncaught error => {| stderr := [Trace error]; exitCode := 1 |}
    | Settled unzipped =>
      match promiseChain env unzipped with
      | (out, Fulfilled) => {| stderr := out; exitCode := 0 |}
      | (out, Rejected error) =>
        {| stderr := (out ++ catch error)%list; exitCode := 0 |}
      end
    end.

End Run.

End Pipeline.

(* ================================================================== *)
(** * Vocabulary of the specification *)
(* ================================================================== *)

Module Spec.
Import JS Mapper.

Local Open Scope list_scope.

(** The scenario entries of a question: [question.scenario[0].atom]. *)
Definition scenarioDetails (question : QuestionData) : option (list Atom) :=
  match scenario question with
  | sc :: _ => Some (atom sc)
  | [] => None
  end.

(** The structural nodes the callback dereferences are all there. *)
Definition well_shaped (question : QuestionData) : bool :=
  match right question with [] => false | _ => true end
  && match info question with
     | Some [] => false
     | Some (i :: _) => match comments i with Some _ => true | None => false end
     | None => true
     end
  && match qtype question with Some [] => false | _ => true end
  && match scenarioDetails question with
     | Some (_ :: _) => true
     | _ => false
     end.

(** Texts of the structured entries of a given kind, in scenario order. *)
Definition kind_texts (kind : string) (atoms : list Atom) : list string :=
  flat_map (fun a =>
              match a with
              | Media m => if (media_type m =? kind)%string then [media_text m] else []
              | Literal _ => []
              end) atoms.

Definition literals (atoms : list Atom) : list string :=
  flat_map (fun a => match a with Literal s => [s] | Media _ => [] end) atoms.

Definition known_kind (kind : string) : bool :=
  (kind =? "image")%string || (kind =? "voice")%string || (kind =? "video")%string
  || (kind =? "say")%string || (kind =? "marker")%string.

(** Which branch of [setQuestionMediaTask] a kind selects. *)
Inductive kind_case (k : string) : Type :=
| KImage (_ : k = "image"%string)
| KVoice (_ : k = "voice"%string)
| KVideo (_ : k = "video"%string)
| KSay (_ : k = "say"%string)
| KMarker (_ : k = "marker"%string)
| KUnknown (_ : known_kind k = false).

(** The warnings a list of entries gives rise to, in scenario order. *)
Definition warnings (atoms : list Atom) : list string :=
  flat_map (fun a =>
              match a with
              | Media m =>
                if known_kind (media_type m) then [] else [unhandled (media_type m)]
              | Literal _ => []
              end) atoms.

(** The path the specification describes: a leading [@] stripped. *)
Definition strip_leading_at (s : string) : string :=
  match s with
  | String c r => if Ascii.eqb c "@" then r else s
  | EmptyString => s
  end.

Fixpoint contains (c : ascii) (s : string) : bool :=
  match s with
  | EmptyString => false
  | String d r => Ascii.eqb d c || contains c r
  end.

(** The text of a name made of bytes below 0x80. *)
Definition is_ascii_byte (b : Byte.byte) : bool :=
  (Byte.to_N b <? 128)%N.

Fixpoint text_of_bytes (bs : list Byte.byte) : string :=
  match bs with
  | [] => EmptyString
  | b :: r => String (ascii_of_byte b) (text_of_bytes r)
  end.

(** The two spellings of the category wager. *)
Definition category_wager (typeName : string) : bool :=
  (typeName =? "cat")%string || (typeName =? "bagcat")%string.

(** The parameters the loop of lines 115-126 runs over. *)
Definition params (t : TypeData) : list ParamData :=
  match param t with
  | ParamArray ps => ps
  | _ => []
  end.

Definition named (n : string) (ps : list ParamData) : list string :=
  map param_text (filter (fun p => (param_name p =? n)%string) ps).

Definition recognised (p : ParamData) : bool :=
  (param_name p =? "cost")%string || (param_name p =? "theme")%string.

(** The type node the switch of line 110 reads, if any. *)
Definition declared_type (question : QuestionData) : option TypeData :=
  match qtype question with
  | Some (t :: _) => Some t
  | _ => None
  end.

(** Values of the [cost] (resp. [theme]) parameters that the type step
    assigns, in order. *)
Definition wager_params (n : string) (question : QuestionData) : list string :=
  match declared_type question with
  | Some t => if category_wager (type_name t) then named n (params t) else []
  | None => []
  end.

(** The value the info step writes, if the question has an info block. *)
Definition info_write (question : QuestionData) : list jsval :=
  match info question with
  | Some (i :: _) =>
    match comments i with
    | Some cs => [first_or_undefined cs]
    | None => []
    end
  | _ => []
  end.

Definition say_writes (question : QuestionData) : list string :=
  match scenarioDetails question with
  | Some atoms => kind_texts "say" atoms
  | None => []
  end.

(** Every write to [explanation], in the order the steps perform them. *)
Definition explanation_writes (question : QuestionData) : list jsval :=
  info_write question
  ++ map JString (wager_params "theme" question)
  ++ map JString (say_writes question).

(** The string [points] is parsed from: the last [cost], else the price. *)
Definition points_source (question : QuestionData) : string :=
  last (wager_params "cost" question) (price question).

(** An optional sign followed by decimal digits and nothing else. *)
Fixpoint all_digits (s : string) : bool :=
  match s with
  | EmptyString => true
  | String c r => is_digit c && all_digits r
  end.

Definition unsigned (s : string) : string :=
  match s with
  | String c r => if Ascii.eqb c "-" || Ascii.eqb c "+" then r else s
  | EmptyString => s
  end.

Definition well_formed_integer (s : string) : bool :=
  match unsigned s with
  | EmptyString => false
  | body => all_digits body
  end.

(** The digits [parseInt] reads: those that follow the leading white
    space and an optional sign. *)
Definition digit_prefix (s : string) : list Z :=
  leading_digits (unsigned (trim_start s)).

(** The state of [q] when the scenario step starts. *)
Definition init_question (question : QuestionData) : Question :=
  {| points := parseInt10 (price question);
     mode := "default";
     type := "plain";
     answers := match right question with r0 :: _ => answer r0 | [] => [] end;
     task := {| text := EmptyString; images := []; sounds := []; video := [] |};
     explanation := JString EmptyString |}.

Definition after_info (question : QuestionData) : Question :=
  match info question with
  | Some (i :: _) =>
    match comments i with
    | Some cs => set_explanation (first_or_undefined cs) (init_question question)
    | None => init_question question
    end
  | _ => init_question question
  end.

Section WithNormalize.
Variable normalize : string -> string.

Definition after_type (question : QuestionData) : Question :=
  match declared_type question with
  | Some t => applyType t (after_info question)
  | None => after_info question
  end.

(** The paths the entries of a kind contribute, in scenario order. *)
Definition media_paths (kind : string) (atoms : list Atom) : list string :=
  map (fun s => normalize (replace_at s)) (kind_texts kind atoms).

(** What the loop over the entries leaves in [q]. *)
Definition looped (atoms : list Atom) (q : Question) : Question :=
  {| points := points q;
     mode := mode q;
     type := type q;
     answers := answers q;
     task :=
       {| text := last (literals atoms) (text (task q));
          images := images (task q) ++ media_paths "image" atoms;
          sounds := sounds (task q) ++ media_paths "voice" atoms;
          video := video (task q) ++ media_paths "video" atoms |};
     explanation := last (map JString (kind_texts "say" atoms)) (explanation q) |}.

(** The question the callback returns, and the warnings it prints, for
    a well-shaped question with the scenario entries [atoms]. *)
Definition converted (question : QuestionData) (atoms : list Atom) : Question :=
  match atoms with
  | [Literal s] => set_text s (after_type question)
  | _ => looped atoms (set_type "media" (after_type question))
  end.

Definition printed (atoms : list Atom) : list string :=
  match atoms with
  | [Literal s] => []
  | _ => warnings atoms
  end.

End WithNormalize.

End Spec.

(* ================================================================== *)
(** * Pipeline vocabulary *)
(* ================================================================== *)

Module RunSpec.
Import JS Pipeline.

Local Open Scope list_scope.

(** Why a run failed. *)
Inductive failure : Type :=
| BadExtension
| MissingInput
| StreamFailure (error : Error)
| StageFailure (error : Error)
| CleanupFailure (error : Error).

Fixpoint first_rejected (l : list settled) : option Error :=
  match l with
  | [] => None
  | Rejected e :: _ => Some e
  | Fulfilled :: r => first_rejected r
  end.

Section Run.
Variable normalize : string -> string.
Variable describe : exn -> string.

(** Outcome of parsing, mapping and writing [scenario.json]. *)
Definition conversion (env : Environment) : settled :=
  match parseString env with
  | ParseFailed e => Rejected e
  | Parsed gamePackage =>
    match snd (Mapper.convertToJSON normalize gamePackage) with
    | Throw e => Rejected {| code := None; message := describe e |}
    | Ok _ => writeFile env
    end
  end.

(** The warnings the mapper prints while it converts. *)
Definition mapper_warnings (env : Environment) : list string :=
  match parseString env with
  | ParseFailed _ => []
  | Parsed gamePackage => fst (Mapper.convertToJSON normalize gamePackage)
  end.

(** The operations before the cleanup, in the order they are attempted,
    from the settlement of [unzip] on. *)
Definition stages (env : Environment) (unzipped : settled) : list settled :=
  [ unzipped; readFile env; conversion env;
    if renamed_exists env then rmdir env else Fulfilled;
    rename env ].

Definition cleanup (env : Environment) : list settled :=
  [ unlink_content env; unlink_content_types env; removeDir_texts env ].

(** The first thing that goes wrong in a run, if anything does. *)
Definition first_failure (env : Environment) : option failure :=
  if negb ((extname env =? EmptyString)%string || (extname env =? ".siq")%string)
  then Some BadExtension
  else if negb (zip_exists env) then Some MissingInput
  else
    match unzip env with
    | Uncaught e => Some (StreamFailure e)
    | Settled unzipped =>
      match first_rejected (stages env unzipped) with
      | Some e => Some (StageFailure e)
      | None =>
        match first_rejected (cleanup env) with
        | Some e => Some (CleanupFailure e)
        | None => None
        end
      end
    end.

End Run.

Definition not_found (e : Error) : bool :=
  match code e with
  | Some c => (c =? "ENOENT")%string
  | None => false
  end.

(** A line other than a warning of the mapper. *)
Definition is_diagnostic (l : line) : bool :=
  match l with
  | Warning _ => false
  | _ => true
  end.

End RunSpec.

(* ================================================================== *)
(** * Concrete inputs *)
(* ================================================================== *)

Module Samples.
Import JS Mapper Pipeline.

Local Open Scope list_scope.

(** A question with one accepted answer and one scenario node. *)
Definition question_of (price : string) (info : option (list InfoData))
  (qtype : option (list TypeData)) (atoms : list Atom) : QuestionData :=
  {| price := price;
     right := [{| answer := ["Paris"] |}];
     info := info;
     qtype := qtype;
     scenario := [{| atom := atoms |}] |}.

Definition media (kind text : string) : Atom :=
  Media {| media_type := kind; media_text := text |}.

Definition wager (ps : list ParamData) : option (list TypeData) :=
  Some [{| type_name := "cat"; param := ParamArray ps |}].

Definition comment (cs : list string) : option (list InfoData) :=
  Some [{| comments := Some cs |}].

(** [<atom>Capital of France?</atom>] *)
Definition plain_question : QuestionData :=
  question_of "100" None None [Literal "Capital of France?"].

(** [<atom/>]: xml2js gives the empty string for an empty element. *)
Definition empty_atom_question : QuestionData :=
  question_of "100" None None [Literal EmptyString].

(** The example of the specification: three sources of explanation. *)
Definition hints_question : QuestionData :=
  question_of "100" (comment ["hint A"])
    (wager [{| param_name := "theme"; param_text := "hint B" |}])
    [media "image" "@flag.png"; media "say" "hint C"].

(** A category wager that costs 500 whatever its price attribute says. *)
Definition wager_question : QuestionData :=
  question_of "100" (comment ["host note"])
    (wager [{| param_name := "cost"; param_text := "500" |};
            {| param_name := "theme"; param_text := "Rivers" |};
            {| param_name := "self"; param_text := "true" |}])
    [Literal "Which river?"].

(** A category wager whose type node has no [param] child. *)
Definition bare_wager_question : QuestionData :=
  question_of "300" (comment ["host note"])
    (Some [{| type_name := "bagcat"; param := ParamAbsent |}])
    [Literal "Which river?"].

(** [price="abc"]. *)
Definition malformed_price_question : QuestionData :=
  question_of "abc" None None [Literal "Capital of France?"].

(** An image whose path has no marker but an [@] inside. *)
Definition interior_at_question : QuestionData :=
  question_of "100" None None [media "image" "pic@2x.png"].

(** A scenario with an entry of a kind the mapper does not know. *)
Definition hologram : MediaScenario :=
  {| media_type := "hologram"; media_text := "@h.bin" |}.

Definition hologram_question : QuestionData :=
  question_of "100" None None
    [media "image" "@a.png"; Media hologram; media "voice" "@b.mp3"].

(** An info block that holds no comment (sources only, say). *)
Definition no_comment_question : QuestionData :=
  question_of "100" (Some [{| comments := None |}]) None
    [Literal "Capital of France?"].

(** An archive entry as the program receives it: the bytes of the name,
    the text the parser makes of them, and no [isUnicode] property. *)
Definition stored (name : list Byte.byte) : Extractor.Entry :=
  {| Extractor.isUnicode := false;
     Extractor.path := Spec.text_of_bytes name;
     Extractor.pathBuffer := name |}.

Definition escaped_entry : Extractor.Entry :=
  stored (list_byte_of_string "Images/a%20b.png").

Definition clean_entry : Extractor.Entry :=
  stored (list_byte_of_string "Images/flag.png").

(** A name stored in UTF-8: an e with acute accent, then [.png]. *)
Definition accented_entry : Extractor.Entry :=
  stored [Byte.xc3; Byte.xa9; Byte.x2e; Byte.x70; Byte.x6e; Byte.x67].

(** The wording of V8 for the errors of the model. *)
Definition v8_message (e : exn) : string :=
  match e with
  | TypeError p => "Cannot read properties of undefined (reading '" ++ p ++ "')"
  | URIError => "URI malformed"
  end%string.

(** A run in which everything succeeds except the named operation. *)
Definition env_with (parse : parsed) (read : settled) (cleanup : settled)
  : Environment :=
  {| extname := ".siq";
     zipFilePath := "/tmp/pack.siq";
     zip_exists := true;
     unzip := Settled Fulfilled;
     readFile := read;
     parseString := parse;
     writeFile := Fulfilled;
     renamed_exists := false;
     rmdir := Fulfilled;
     rename := Fulfilled;
     unlink_content := Fulfilled;
     unlink_content_types := cleanup;
     removeDir_texts := Fulfilled |}.

Definition small_package : PackageData :=
  {| pkg_id := "p1"; pkg_name := "Pack"; pkg_version := "4";
     pkg_difficulty := "5"; pkg_restriction := "12+"; pkg_date := "01.01.2020";
     pkg_info := Some [{| authors := None |}];
     rounds :=
       [{| round :=
             [{| round_name := "Round 1";
                 themes :=
                   [{| theme :=
                         [{| theme_name := "Geography";
                             questions :=
                               [{| question := [plain_question] |}] |}] |}] |}] |}] |}.

(** The XML parser rejects the document. *)
Definition malformed_xml_run : Environment :=
  env_with (ParseFailed {| code := None; message := "Unclosed root tag" |})
           Fulfilled Fulfilled.

(** The archive holds no [content.xml]. *)
Definition missing_content_run : Environment :=
  env_with (Parsed small_package)
           (Rejected {| code := Some "ENOENT"%string;
                        message := "ENOENT: no such file or directory" |})
           Fulfilled.

(** The archive cannot be read: the read stream emits an error. *)
Definition unreadable_archive_run : Environment :=
  {| extname := ".siq";
     zipFilePath := "/tmp/pack.siq";
     zip_exists := true;
     unzip := Uncaught {| code := Some "EACCES"%string;
                          message := "EACCES: permission denied" |};
     readFile := Fulfilled;
     parseString := Parsed small_package;
     writeFile := Fulfilled;
     renamed_exists := false;
     rmdir := Fulfilled;
     rename := Fulfilled;
     unlink_content := Fulfilled;
     unlink_content_types := Fulfilled;
     removeDir_texts := Fulfilled |}.

(** A housekeeping file cannot be deleted for lack of permission. *)
Definition cleanup_denied_run : Environment :=
  env_with (Parsed small_package) Fulfilled
           (Rejected {| code := Some "EACCES"%string;
                        message := "EACCES: permission denied" |}).

End Samples.

(* ================================================================== *)
(** * Archive extractor: the entry handler (lines 45-68) *)
(* ================================================================== *)

Module Unzip.
Import JS.

Local Open Scope list_scope.

(** The calls the handler makes to the file system, as they happen. *)
Inductive call : Type :=
| ExistsSync (directory : string)
| MkdirSync (directory : string)
| CreateWriteStream (fileDestination : string).

(** The directories present on disk, the array [assertedPaths] of
    line 47 and the calls made so far. *)
Record State : Type := {
  directories : list string;
  assertedPaths : list string;
  calls : list call
}.

(** [array.includes(x)] on strings. *)
Definition includes (array : list string) (x : string) : bool :=
  existsb (String.eqb x) array.

Definition log (c : call) (st : State) : State :=
  {| directories := directories st;
     assertedPaths := assertedPaths st;
     calls := calls st ++ [c] |}.

Section Handler.

Variable unzippedFolder : string.

(** [path.join] and [path.dirname]. *)
Variable join : string -> string -> string.
Variable dirname : string -> string.

(** The missing ancestors [fs.mkdirSync] creates along with a directory
    under [recursive: true]. The call is taken to succeed. *)
Variable parents : string -> list string.

(** Lines 58-61. The second operand of [&&] is evaluated only when the
    first holds, so the disk is probed only for a directory that is not
    in [assertedPaths]. *)
Definition assertDirectory (directory : string) (st : State) : State :=
  if negb (includes (assertedPaths st) directory) then
    let probed := log (ExistsSync directory) st in
    if negb (includes (directories st) directory) then
      {| directories := directory :: parents directory ++ directories probed;
         assertedPaths := assertedPaths probed ++ [directory];
         calls := calls probed ++ [MkdirSync directory] |}
    else probed
  else st.

(** Lines 50-64: the listener of the [entry] event. *)
Definition onEntry (entry : Extractor.Entry) (st : State) : result State :=
  match Extractor.decodedFileName entry with
  | Throw e => Throw e
  | Ok decodedFileName =>
    let fileDestination := join unzippedFolder decodedFileName in
    let directory := dirname fileDestination in
    Ok (log (CreateWriteStream fileDestination) (assertDirectory directory st))
  end.

(** The entries of the archive, in the order the parser emits them. An
    exception in the listener makes the parser emit [error]: the entries
    after it are not handled. *)
Fixpoint onEntries (entries : list Extractor.Entry) (st : State) : result State :=
  match entries with
  | [] => Ok st
  | entry :: rest =>
    match onEntry entry st with
    | Ok st' => onEntries rest st'
    | Throw e => Throw e
    end
  end.

(** The state in which [unzip] starts, on a disk holding [disk]. *)
Definition start (disk : list string) : State :=
  {| directories := disk; assertedPaths := []; calls := [] |}.

(** Where an entry is written, when its name can be recovered. *)
Definition destination (entry : Extractor.Entry) : option string :=
  match Extractor.decodedFileName entry with
  | Ok decodedFileName => Some (join unzippedFolder decodedFileName)
  | Throw _ => None
  end.

End Handler.

(** The invariant of the handler, relative to the directories [disk]
    present when the extraction starts: [assertedPaths] lists, without
    repetition, the directories created so far; they exist, none of them
    was on the disk at the start, and nothing that was has gone. *)
Definition invariant (disk : list string) (st : State) : Prop :=
  NoDup (assertedPaths st)
  /\ incl (assertedPaths st) (directories st)
  /\ incl disk (directories st)
  /\ (forall d, In d (assertedPaths st) -> ~ In d disk)
  /\ flat_map (fun c => match c with MkdirSync d => [d] | _ => [] end) (calls st)
     = assertedPaths st.

(** The directories created, and the files opened, by a list of calls. *)
Definition created (cs : list call) : list string :=
  flat_map (fun c => match c with MkdirSync d => [d] | _ => [] end) cs.

Definition opened (cs : list call) : list string :=
  flat_map (fun c => match c with CreateWriteStream f => [f] | _ => [] end) cs.

End Unzip.

(* ================================================================== *)
(** * Names derived from the command line (line 41) *)
(* ================================================================== *)

Module Naming.

(** What is left of [s] after the prefix [pattern], if it starts with it. *)
Fixpoint strip_prefix (pattern s : string) : option string :=
  match pattern, s with
  | EmptyString, _ => Some s
  | String a p, String b r => if Ascii.eqb a b then strip_prefix p r else None
  | String _ _, EmptyString => None
  end.

(** [s.replace(pattern, '')] for a string pattern: the first occurrence
    goes, the rest stays. *)
Fixpoint remove_first (pattern s : string) : string :=
  match strip_prefix pattern s with
  | Some rest => rest
  | None =>
    match s with
    | EmptyString => EmptyString
    | String c r => String c (remove_first pattern r)
    end
  end.

(** Line 41; [basename] is [path.basename(relativePath)]. *)
Definition filename (basename extension : string) : string :=
  remove_first extension basename.

End Naming.

(* ================================================================== *)
(** * Vocabulary for the document as a whole *)
(* ================================================================== *)

Module Document.
Import JS Mapper Spec.

Local Open Scope list_scope.

(** The elements a value returned by [onEntry] adds to the accumulator. *)
Definition items {B} (r : retrieved B) : list B :=
  match r with
  | NotArray b => [b]
  | IsArray bs => bs
  end.

(** The structural nodes [convertToJSON] dereferences are all there. *)
Definition theme_shaped (th : ThemeData) : bool :=
  match questions th with
  | qs :: _ => forallb well_shaped (question qs)
  | [] => false
  end.

Definition round_shaped (rd : RoundData) : bool :=
  match themes rd with
  | ths :: _ => forallb theme_shaped (theme ths)
  | [] => false
  end.

Definition package_shaped (gamePackage : PackageData) : bool :=
  match pkg_info gamePackage with
  | Some _ =>
    match rounds gamePackage with
    | rs :: _ => forallb round_shaped (round rs)
    | [] => false
    end
  | None => false
  end.

(** The same package with other info blocks. *)
Definition with_info (info : option (list PackageInfo)) (gamePackage : PackageData)
  : PackageData :=
  {| pkg_id := pkg_id gamePackage;
     pkg_name := pkg_name gamePackage;
     pkg_version := pkg_version gamePackage;
     pkg_difficulty := pkg_difficulty gamePackage;
     pkg_restriction := pkg_restriction gamePackage;
     pkg_date := pkg_date gamePackage;
     pkg_info := info;
     rounds := rounds gamePackage |}.

Definition has_authors (entry : PackageInfo) : bool :=
  match authors entry with
  | Some _ => true
  | None => false
  end.

(** The names [createdBy] receives: the [author] arrays of the first
    info block that declares authors, end to end. *)
Definition credited (gamePackage : PackageData) : list string :=
  match pkg_info gamePackage with
  | Some info =>
    match find has_authors info with
    | Some entry =>
      match authors entry with
      | Some l => flat_map author l
      | None => []
      end
    | None => []
    end
  | None => []
  end.

Section Relations.
Variable normalize : string -> string.

(** An output node stands for an input node. *)
Definition question_of (qd : QuestionData) (q : Question) : Prop :=
  exists w, convertQuestion normalize qd = (w, Ok q).

Definition theme_of (td : ThemeData) (t : Theme) : Prop :=
  t_name t = theme_name td
  /\ exists qs rest,
      questions td = qs :: rest
      /\ Forall2 question_of (question qs) (t_questions t).

Definition round_of (rd : RoundData) (r : Round) : Prop :=
  r_name r = round_name rd
  /\ exists ths rest,
      themes rd = ths :: rest
      /\ Forall2 theme_of (theme ths) (r_themes r).

End Relations.

End Document.

(* ================================================================== *)
(** * More concrete inputs *)
(* ================================================================== *)

Module MoreSamples.
Import JS Mapper Pipeline.

Local Open Scope list_scope.

(** A scenario with a caption between two pictures and a cue. *)
Definition captioned_question : QuestionData :=
  Samples.question_of "200" None None
    [Samples.media "image" "@a.png"; Literal "first"; Samples.media "marker" EmptyString;
     Samples.media "image" "@b.png"; Literal "second"].

(** A question without scenario node. *)
Definition hollow_question : QuestionData :=
  {| price := "100"; right := [{| answer := ["x"] |}]; info := None;
     qtype := None; scenario := [] |}.

Definition pack (info : list PackageInfo) (qs : list QuestionData) : PackageData :=
  {| pkg_id := "p1"; pkg_name := "Pack"; pkg_version := "4";
     pkg_difficulty := "5"; pkg_restriction := "12+"; pkg_date := "01.01.2020";
     pkg_info := Some info;
     rounds :=
       [{| round :=
             [{| round_name := "Round 1";
                 themes :=
                   [{| theme :=
                         [{| theme_name := "Geography";
                             questions := [{| question := qs |}] |}] |}] |}] |}] |}.

Definition team : list Author :=
  [{| author := ["Ann"; "Bob"] |}; {| author := ["Cid"] |}].

Definition signed_pack : PackageData :=
  pack [{| authors := None |}; {| authors := Some team |};
        {| authors := Some [{| author := ["Dan"] |}] |}]
       [Samples.plain_question; Samples.hologram_question].

Definition anonymous_pack : PackageData :=
  pack [{| authors := None |}] [Samples.plain_question].

Definition broken_pack : PackageData :=
  pack [{| authors := None |}]
       [Samples.hologram_question; hollow_question; Samples.plain_question].

(** A document without info element. *)
Definition bare_pack : PackageData :=
  Document.with_info None anonymous_pack.

(** Two entries of one directory and one of another; [join] and
    [dirname] on names that need no normalisation. *)
Definition entry_named (p : string) : Extractor.Entry :=
  Samples.stored (list_byte_of_string p).

Definition join (a b : string) : string := (a ++ "/" ++ b)%string.

Fixpoint dirname (s : string) : string :=
  match s with
  | EmptyString => EmptyString
  | String c r =>
    if Spec.contains "/" r then String c (dirname r) else EmptyString
  end.

Definition no_parents (d : string) : list string := [].

Definition archive : list Extractor.Entry :=
  [entry_named "Images/a.png"; entry_named "Images/b.png";
   entry_named "Audio/c.mp3"].

(** A name stored in code page 866 (the bytes of a Cyrillic word). *)
Definition legacy_entry : Extractor.Entry :=
  {| Extractor.isUnicode := false;
     Extractor.path := EmptyString;
     Extractor.pathBuffer := [Byte.x8a; Byte.xae; Byte.xe2; Byte.x2e; Byte.x70] |}.

Definition truncated_entry : Extractor.Entry := entry_named "sale 100%.png".

(** A run in which the mapper meets a question without scenario. *)
Definition broken_run : Environment :=
  Samples.env_with (Parsed broken_pack) Fulfilled Fulfilled.

End MoreSamples.

(* ================================================================== *)
(** * Properties *)
(* ================================================================== *)

Import JS Mapper Spec.

Local Open Scope list_scope.

(** ** The built-ins on a few inputs *)

Example parseInt_of_500 : parseInt10 "500" = Num 500.
Proof. reflexivity. Qed.

Example parseInt_reads_a_prefix : parseInt10 "  -12px" = Num (-12).
Proof. reflexivity. Qed.

Example parseInt_of_letters : parseInt10 "abc" = NaN.
Proof. reflexivity. Qed.

Example parseInt_rounds_to_double :
  parseInt10 "9007199254740993" = Num 9007199254740992.
Proof. vm_compute. reflexivity. Qed.

Example decode_escaped_space : decodeURIComponent "a%20b" = Ok "a b"%string.
Proof. reflexivity. Qed.

Example decode_lone_percent : decodeURIComponent "100%" = Throw URIError.
Proof. reflexivity. Qed.

Example decode_two_octets :
  decodeURIComponent "%D0%B0x" = Ok (bytes_string [208; 176; 120]%Z).
Proof. reflexivity. Qed.

Example decode_three_octets :
  decodeURIComponent "%E2%82%ACz" = Ok (bytes_string [226; 130; 172; 122]%Z).
Proof. reflexivity. Qed.

Example decode_four_octets :
  decodeURIComponent "%F0%9F%98%80" = Ok (bytes_string [240; 159; 152; 128]%Z).
Proof. reflexivity. Qed.

Example decode_overlong : decodeURIComponent "%C0%80" = Throw URIError.
Proof. reflexivity. Qed.

Example decode_surrogate : decodeURIComponent "%ED%A0%80" = Throw URIError.
Proof. reflexivity. Qed.

Example normalize_collapses : Lib.posix_normalize "a//b/../c/" = "a/c/"%string.
Proof. reflexivity. Qed.

Example normalize_keeps_leading_dots : Lib.posix_normalize "../x/./y" = "../x/y"%string.
Proof. reflexivity. Qed.

Example normalize_root : Lib.posix_normalize "/../x" = "/x"%string.
Proof. reflexivity. Qed.

Example normalize_empty : Lib.posix_normalize "a/.." = "."%string.
Proof. reflexivity. Qed.

Example cp866_cyrillic :
  Lib.cp866_decode [Byte.x80; Byte.x41] = bytes_string [208; 144; 65]%Z.
Proof. reflexivity. Qed.

(** ** The monad *)

Lemma bind_ret_l {A B} (a : A) (k : A -> M B) : bind (ret a) k = k a.
Proof. unfold bind, ret. destruct (k a) as [w r]. reflexivity. Qed.

Lemma bind_ret_r {A} (c : M A) : bind c ret = c.
Proof.
  destruct c as [w [a | e]]; simpl; [rewrite app_nil_r|]; reflexivity.
Qed.

Lemma bind_throw {A B} (e : exn) (k : A -> M B) : bind (throw e) k = throw e.
Proof. reflexivity. Qed.

Lemma bind_ok {A B} (w : list string) (a : A) (k : A -> M B) :
  bind (w, Ok a) k = (w ++ fst (k a), snd (k a)).
Proof. unfold bind. destruct (k a). reflexivity. Qed.

Lemma last_cons {A} (a d : A) (l : list A) : last (a :: l) d = last l a.
Proof.
  revert a d. induction l as [| b l IH]; intros a d; [reflexivity|].
  change (last (a :: b :: l) d) with (last (b :: l) d).
  rewrite (IH b d), (IH b a). reflexivity.
Qed.

Lemma last_app_default {A} (l1 l2 : list A) (d : A) :
  last (l1 ++ l2) d = last l2 (last l1 d).
Proof.
  revert d. induction l1 as [| a l1 IH]; intro d; [reflexivity|].
  rewrite <- app_comm_cons, !last_cons. apply IH.
Qed.

(** ** The loop over the scenario entries *)

Section Loop.
Variable normalize : string -> string.

Lemma kind_cases (k : string) : kind_case k.
Proof.
  destruct (String.eqb_spec k "image"); [now apply KImage|].
  destruct (String.eqb_spec k "voice"); [now apply KVoice|].
  destruct (String.eqb_spec k "video"); [now apply KVideo|].
  destruct (String.eqb_spec k "say"); [now apply KSay|].
  destruct (String.eqb_spec k "marker"); [now apply KMarker|].
  apply KUnknown. unfold known_kind.
  repeat match goal with
         | H : ?a <> ?b |- _ => apply String.eqb_neq in H; rewrite H; clear H
         end.
  reflexivity.
Qed.

Lemma known_kind_false (k : string) :
  known_kind k = false ->
  (k =? "image")%string = false /\ (k =? "voice")%string = false
  /\ (k =? "video")%string = false /\ (k =? "say")%string = false
  /\ (k =? "marker")%string = false.
Proof.
  unfold known_kind. intro H.
  repeat (apply orb_false_iff in H; destruct H as [H ?]). auto.
Qed.

(** An entry of unknown kind prints one warning and leaves [q] alone. *)
Lemma setQuestionMediaTask_unknown (m : MediaScenario) (q : Question) :
  known_kind (media_type m) = false ->
  setQuestionMediaTask normalize m q = ([unhandled (media_type m)], Ok q).
Proof.
  intro H. apply known_kind_false in H as (H1 & H2 & H3 & H4 & H5).
  unfold setQuestionMediaTask. rewrite H1, H2, H3, H4, H5. reflexivity.
Qed.

Lemma looped_nil (q : Question) : looped normalize [] q = q.
Proof.
  unfold looped, media_paths. simpl. rewrite !app_nil_r.
  destruct q as [p m t a [tx im so vi] e]. reflexivity.
Qed.

(** One iteration, in closed form. *)
Lemma scenarioStep_spec (a : Atom) (q : Question) :
  scenarioStep normalize a q = (warnings [a], Ok (looped normalize [a] q)).
Proof.
  destruct a as [s | m]; simpl.
  - unfold ret, looped, media_paths, set_text, set_task. simpl.
    rewrite !app_nil_r. reflexivity.
  - unfold warnings, looped, media_paths, kind_texts. simpl.
    destruct (kind_cases (media_type m)) as [E | E | E | E | E | E].
    1-5: unfold setQuestionMediaTask, known_kind; rewrite E; simpl;
      rewrite ?app_nil_r; destruct q as [p mo t an [tx im so vi] e]; reflexivity.
    rewrite (setQuestionMediaTask_unknown _ _ E), E.
    apply known_kind_false in E as (H1 & H2 & H3 & H4 & H5).
    rewrite H1, H2, H3, H4. simpl. rewrite !app_nil_r.
    destruct q as [p mo t an [tx im so vi] e]. reflexivity.
Qed.

Lemma looped_app (l1 l2 : list Atom) (q : Question) :
  looped normalize (l1 ++ l2) q = looped normalize l2 (looped normalize l1 q).
Proof.
  unfold looped, media_paths, kind_texts, literals. simpl.
  rewrite !flat_map_app, !map_app, !last_app_default, !app_assoc.
  reflexivity.
Qed.

Lemma warnings_app (l1 l2 : list Atom) :
  warnings (l1 ++ l2) = warnings l1 ++ warnings l2.
Proof. apply flat_map_app. Qed.

(** The loop never throws; its effect on [q] is [looped]. *)
Lemma scenarioLoop_spec (atoms : list Atom) (q : Question) :
  scenarioLoop normalize atoms q = (warnings atoms, Ok (looped normalize atoms q)).
Proof.
  revert q. induction atoms as [| a rest IH]; intro q.
  - simpl. rewrite looped_nil. reflexivity.
  - simpl scenarioLoop. rewrite scenarioStep_spec, bind_ok, IH. simpl fst. simpl snd.
    change (a :: rest) with ([a] ++ rest).
    rewrite warnings_app, looped_app. reflexivity.
Qed.

(** The scenario step as a whole. *)
Lemma resolveScenario_plain (s : string) (q : Question) :
  resolveScenario normalize [Literal s] q = ([], Ok (set_text s q)).
Proof. reflexivity. Qed.

Lemma resolveScenario_empty (q : Question) :
  resolveScenario normalize [] q = ([], Throw (TypeError "$")).
Proof. reflexivity. Qed.

Lemma resolveScenario_media (atoms : list Atom) (q : Question) :
  atoms <> [] -> (forall s, atoms <> [Literal s]) ->
  resolveScenario normalize atoms q
  = (warnings atoms, Ok (looped normalize atoms (set_type "media" q))).
Proof.
  intros Hne Hlit. destruct atoms as [| a [| b rest]]; [congruence | |].
  - destruct a as [s | m]; [now elim (Hlit s)|].
    simpl resolveScenario.
    rewrite <- scenarioLoop_spec. simpl. rewrite bind_ret_r. reflexivity.
  - rewrite <- scenarioLoop_spec.
    unfold resolveScenario.
    replace (1 <? Z.of_nat (List.length (a :: b :: rest)))%Z with true
      by (symmetry; apply Z.ltb_lt; simpl List.length; lia).
    destruct a; reflexivity.
Qed.

End Loop.

(** ** The type step *)

Lemma last_map {A B} (f : A -> B) (l : list A) (d : A) :
  last (map f l) (f d) = f (last l d).
Proof.
  revert d. induction l as [| a l IH]; intro d; [reflexivity|].
  rewrite map_cons, !last_cons. apply IH.
Qed.

Lemma named_cons (n : string) (p : ParamData) (ps : list ParamData) :
  named n (p :: ps)
  = if (param_name p =? n)%string then param_text p :: named n ps else named n ps.
Proof.
  unfold named. simpl filter. destruct (param_name p =? n)%string; reflexivity.
Qed.

(** The loop over the parameters, in closed form. *)
Lemma fold_applyParam (ps : list ParamData) (q : Question) :
  fold_left applyParam ps q
  = {| points := last (map parseInt10 (named "cost" ps)) (points q);
       mode := mode q;
       type := type q;
       answers := answers q;
       task := task q;
       explanation := last (map JString (named "theme" ps)) (explanation q) |}.
Proof.
  revert q. induction ps as [| p ps IH]; intro q.
  - destruct q; reflexivity.
  - simpl fold_left. rewrite IH, !named_cons. unfold applyParam.
    destruct (param_name p =? "cost")%string eqn:E.
    + apply String.eqb_eq in E. rewrite E.
      change ("cost" =? "theme")%string with false.
      rewrite map_cons, last_cons. reflexivity.
    + destruct (param_name p =? "theme")%string eqn:E';
        rewrite ?map_cons, ?last_cons; reflexivity.
Qed.

Lemma applyType_wager (t : TypeData) (q : Question) :
  category_wager (type_name t) = true ->
  applyType t q
  = {| points := last (map parseInt10 (named "cost" (params t))) (points q);
       mode := "delegate";
       type := type q;
       answers := answers q;
       task := task q;
       explanation := last (map JString (named "theme" (params t))) (explanation q) |}.
Proof.
  unfold category_wager, applyType, params. intros ->.
  destruct (param t); rewrite ?fold_applyParam; reflexivity.
Qed.

Lemma applyType_other (t : TypeData) (q : Question) :
  category_wager (type_name t) = false ->
  applyType t q = set_mode (type_name t) q.
Proof. unfold category_wager, applyType. intros ->. reflexivity. Qed.

(** ** The callback as a whole *)

Section Callback.
Variable normalize : string -> string.

(** With its structural nodes in place, the callback reaches the scenario
    step with [q] in the state [after_type]. *)
Lemma convertQuestion_shaped (question : QuestionData) (atoms : list Atom) :
  well_shaped question = true ->
  scenarioDetails question = Some atoms ->
  convertQuestion normalize question
  = resolveScenario normalize atoms (after_type question).
Proof.
  unfold well_shaped, scenarioDetails, convertQuestion, after_type, after_info,
    declared_type, init_question.
  destruct question as [pr ri inf ty sc]; simpl.
  destruct ri as [| r0 ri]; [discriminate|].
  destruct inf as [[| [[cs |]] inf] |]; try discriminate;
    destruct ty as [[| t0 ty] |]; try discriminate;
    destruct sc as [| s0 sc]; try discriminate;
    intros _ [= <-]; cbn -[bind resolveScenario applyType];
    rewrite ?bind_ret_l; cbn -[bind resolveScenario applyType];
    rewrite ?bind_ret_l; reflexivity.
Qed.

(** A missing structural node makes the callback throw. *)
Lemma convertQuestion_unshaped (question : QuestionData) :
  well_shaped question = false ->
  exists w e, convertQuestion normalize question = (w, Throw e).
Proof.
  unfold well_shaped, scenarioDetails, convertQuestion.
  destruct question as [pr ri inf ty sc]; simpl.
  destruct ri as [| r0 ri]; [intros _; simpl; eauto|].
  destruct inf as [[| [[cs |]] inf] |];
    [intros _; simpl; eauto | | intros _; simpl; eauto |];
    (destruct ty as [[| t0 ty] |]; [intros _; simpl; eauto | |]);
    (destruct sc as [| [[| a atoms]] sc]; [intros _; simpl; eauto | | discriminate]);
    intros _; simpl; rewrite ?bind_ret_l; simpl; eauto.
Qed.

(** The callback returns a question exactly when the question is
    well shaped, and then the result is [converted]. *)
Lemma convertQuestion_total (question : QuestionData) (atoms : list Atom) :
  well_shaped question = true ->
  scenarioDetails question = Some atoms ->
  convertQuestion normalize question
  = (printed atoms, Ok (converted normalize question atoms)).
Proof.
  intros Hs Ha. rewrite (convertQuestion_shaped _ _ Hs Ha).
  assert (Hne : atoms <> []).
  { unfold well_shaped in Hs. rewrite Ha in Hs. destruct atoms; [|discriminate].
    rewrite !andb_false_r in Hs. discriminate. }
  destruct atoms as [| [s | m] [| b rest]]; try congruence;
    try reflexivity;
    unfold printed, converted; apply resolveScenario_media; congruence.
Qed.

Lemma convertQuestion_inv (question : QuestionData) (w : list string) (r : Question) :
  convertQuestion normalize question = (w, Ok r) ->
  exists atoms,
    well_shaped question = true /\ scenarioDetails question = Some atoms
    /\ w = printed atoms /\ r = converted normalize question atoms.
Proof.
  intro H. destruct (well_shaped question) eqn:Hs.
  - assert (exists atoms, scenarioDetails question = Some atoms) as [atoms Ha].
    { unfold well_shaped in Hs. destruct (scenarioDetails question); eauto.
      rewrite andb_false_r in Hs. discriminate. }
    rewrite (convertQuestion_total _ _ Hs Ha) in H. inversion H; subst. eauto.
  - destruct (convertQuestion_unshaped _ Hs) as (w' & e & H'). congruence.
Qed.

End Callback.

(** ** State of [q] before the scenario step *)

Lemma applyType_keeps (t : TypeData) (q : Question) :
  type (applyType t q) = type q /\ task (applyType t q) = task q
  /\ answers (applyType t q) = answers q.
Proof.
  destruct (category_wager (type_name t)) eqn:E.
  - rewrite (applyType_wager _ _ E). auto.
  - rewrite (applyType_other _ _ E). auto.
Qed.

Lemma after_type_plain (question : QuestionData) :
  type (after_type question) = "plain"%string
  /\ task (after_type question)
     = {| text := EmptyString; images := []; sounds := []; video := [] |}.
Proof.
  unfold after_type.
  assert (H : type (after_info question) = "plain"%string
              /\ task (after_info question)
                 = {| text := EmptyString; images := []; sounds := []; video := [] |}).
  { unfold after_info. destruct (info question) as [[| i l] |]; try destruct (comments i); auto. }
  destruct (declared_type question) as [t |]; [|exact H].
  destruct (applyType_keeps t (after_info question)) as (-> & -> & _). exact H.
Qed.

Lemma explanation_after_info (question : QuestionData) :
  explanation (after_info question)
  = last (info_write question) (JString EmptyString).
Proof.
  unfold after_info, info_write. destruct (info question) as [[| i l] |]; try destruct (comments i);
    reflexivity.
Qed.

Lemma explanation_after_type (question : QuestionData) :
  explanation (after_type question)
  = last (map JString (wager_params "theme" question))
         (explanation (after_info question)).
Proof.
  unfold after_type, wager_params. destruct (declared_type question) as [t |];
    [|reflexivity].
  destruct (category_wager (type_name t)) eqn:E.
  - rewrite (applyType_wager _ _ E). reflexivity.
  - rewrite (applyType_other _ _ E). reflexivity.
Qed.

Lemma points_after_type (question : QuestionData) :
  points (after_type question) = parseInt10 (points_source question).
Proof.
  unfold after_type, points_source, wager_params.
  assert (H : points (after_info question) = parseInt10 (price question)).
  { unfold after_info. destruct (info question) as [[| i l] |]; try destruct (comments i);
    reflexivity. }
  destruct (declared_type question) as [t |]; [|exact H].
  destruct (category_wager (type_name t)) eqn:E.
  - rewrite (applyType_wager _ _ E). simpl points. rewrite H. apply last_map.
  - rewrite (applyType_other _ _ E). exact H.
Qed.

Section Result.
Variable normalize : string -> string.

Lemma converted_points_mode (question : QuestionData) (atoms : list Atom) :
  points (converted normalize question atoms) = points (after_type question)
  /\ mode (converted normalize question atoms) = mode (after_type question).
Proof.
  unfold converted. destruct atoms as [| [s | m] [| b rest]]; auto.
Qed.

Lemma converted_explanation (question : QuestionData) (atoms : list Atom) :
  explanation (converted normalize question atoms)
  = last (map JString (kind_texts "say" atoms)) (explanation (after_type question)).
Proof.
  unfold converted. destruct atoms as [| [s | m] [| b rest]]; reflexivity.
Qed.

Lemma converted_type (question : QuestionData) (atoms : list Atom) :
  type (converted normalize question atoms)
  = match atoms with [Literal _] => "plain" | _ => "media" end%string.
Proof.
  destruct (after_type_plain question) as [Ht _].
  unfold converted. destruct atoms as [| [s | m] [| b rest]]; auto.
Qed.

End Result.

(* ------------------------------------------------------------------ *)
(** ** Question type (C1) *)
(* ------------------------------------------------------------------ *)

(** C1, as stated, fails on the question whose only scenario entry is the
    empty string (what xml2js makes of an empty [atom] element): it is a
    single plain literal, the type is [plain], yet [task.text] is empty. *)
Lemma C1_counterexample :
  ~ (forall w r s,
        convertQuestion Lib.posix_normalize Samples.empty_atom_question = (w, Ok r) ->
        scenarioDetails Samples.empty_atom_question = Some [Literal s] ->
        type r = "plain"%string /\ text (task r) = s /\ text (task r) <> EmptyString
        /\ images (task r) = [] /\ sounds (task r) = [] /\ video (task r) = []).
Proof.
  intro H.
  destruct (H _ _ EmptyString eq_refl eq_refl) as (_ & _ & Hne & _).
  apply Hne. reflexivity.
Qed.

(** C1 (amended): a well-shaped question is converted, and the type of the
    result depends on the shape of the scenario entry list alone. A single
    plain literal gives [plain], [task.text] equal to that literal (empty
    when the literal is) and no image, sound or video; every other list
    gives [media]. *)
Theorem C1_type_decided_by_scenario_shape :
  forall (normalize : string -> string) (question : QuestionData) (atoms : list Atom),
    well_shaped question = true ->
    scenarioDetails question = Some atoms ->
    exists w r,
      convertQuestion normalize question = (w, Ok r)
      /\ (forall s, atoms = [Literal s] ->
            type r = "plain"%string /\ text (task r) = s
            /\ images (task r) = [] /\ sounds (task r) = [] /\ video (task r) = [])
      /\ ((forall s, atoms <> [Literal s]) -> type r = "media"%string).
Proof.
  intros normalize question atoms Hs Ha.
  exists (printed atoms), (converted normalize question atoms).
  split; [apply convertQuestion_total; assumption|].
  destruct (after_type_plain question) as [Ht Htask].
  split.
  - intros s ->. unfold converted, set_text. simpl. rewrite Ht, Htask. auto.
  - intro Hn. rewrite converted_type.
    destruct atoms as [| [s | m] [| b rest]]; try reflexivity.
    now elim (Hn s).
Qed.

Lemma C1_witness :
  exists w r,
    convertQuestion Lib.posix_normalize Samples.plain_question = (w, Ok r)
    /\ type r = "plain"%string
    /\ text (task r) = "Capital of France?"%string
    /\ images (task r) = [] /\ sounds (task r) = [] /\ video (task r) = [].
Proof.
  destruct (C1_type_decided_by_scenario_shape Lib.posix_normalize
              Samples.plain_question _ eq_refl eq_refl)
    as (w & r & H & Hplain & _).
  exists w, r. split; [exact H|]. exact (Hplain _ eq_refl).
Defined.

(* ------------------------------------------------------------------ *)
(** ** Explanation (C2) *)
(* ------------------------------------------------------------------ *)

Lemma explanation_writes_last (normalize : string -> string)
  (question : QuestionData) (w : list string) (r : Question) :
  convertQuestion normalize question = (w, Ok r) ->
  explanation r = last (explanation_writes question) (JString EmptyString).
Proof.
  intro H.
  destruct (convertQuestion_inv _ _ _ _ H) as (atoms & Hs & Ha & _ & ->).
  rewrite converted_explanation, explanation_after_type, explanation_after_info.
  unfold explanation_writes, say_writes. rewrite Ha, !last_app_default.
  reflexivity.
Qed.

(** C2: the explanation of the result is the last of the writes performed
    in the fixed order info comment, category-wager [theme] parameters,
    [say] entries (the empty string when there is none). In particular,
    one write of each source leaves the text of the [say] entry. *)
Theorem C2_explanation_last_write_wins :
  forall (normalize : string -> string) (question : QuestionData)
         (w : list string) (r : Question),
    convertQuestion normalize question = (w, Ok r) ->
    explanation r = last (explanation_writes question) (JString EmptyString)
    /\ (forall a b c,
          info_write question = [JString a] ->
          wager_params "theme" question = [b] ->
          say_writes question = [c] ->
          explanation r = JString c).
Proof.
  intros normalize question w r H.
  pose proof (explanation_writes_last _ _ _ _ H) as E.
  split; [exact E|].
  intros a b c Hi Ht Hy. rewrite E. unfold explanation_writes.
  rewrite Hi, Ht, Hy. reflexivity.
Qed.

Lemma C2_witness :
  explanation_writes Samples.hints_question
  = [JString "hint A"; JString "hint B"; JString "hint C"]
  /\ exists w r,
      convertQuestion Lib.posix_normalize Samples.hints_question = (w, Ok r)
      /\ explanation r = JString "hint C".
Proof.
  split; [reflexivity|].
  eexists. eexists. split; [reflexivity|].
  apply (proj2 (C2_explanation_last_write_wins Lib.posix_normalize
                  Samples.hints_question _ _ eq_refl)
               "hint A"%string "hint B"%string "hint C"%string);
    reflexivity.
Defined.

(* ------------------------------------------------------------------ *)
(** ** Declared type (C3, C9) *)
(* ------------------------------------------------------------------ *)

Lemma named_recognised (n : string) (ps : list ParamData) :
  n = "cost"%string \/ n = "theme"%string ->
  named n (filter recognised ps) = named n ps.
Proof.
  intro Hn. induction ps as [| p ps IH]; [reflexivity|].
  simpl filter. unfold recognised at 1.
  destruct (param_name p =? "cost")%string eqn:Ec;
    [| destruct (param_name p =? "theme")%string eqn:Et]; simpl orb;
    rewrite ?named_cons, IH; try reflexivity.
  destruct Hn as [-> | ->]; [rewrite Ec | rewrite Et]; reflexivity.
Qed.

Lemma after_type_declared (question : QuestionData) (t : TypeData) :
  declared_type question = Some t ->
  after_type question = applyType t (after_info question).
Proof. unfold after_type. intros ->. reflexivity. Qed.

Lemma points_after_info (question : QuestionData) :
  points (after_info question) = parseInt10 (price question).
Proof. unfold after_info. destruct (info question) as [[| i l] |]; try destruct (comments i);
    reflexivity. Qed.

(** C3: under either spelling of the category wager the mode is
    [delegate], the last [cost] parameter (if any) replaces the points
    parsed from the price, a cost of 500 giving 500 points, the last
    [theme] parameter (if any) replaces the explanation, which stays in
    the result unless a [say] entry follows, and the other parameters
    change nothing. Under any other type name the mode is that name. *)
Theorem C3_declared_type_sets_mode :
  forall (normalize : string -> string) (question : QuestionData) (t : TypeData)
         (w : list string) (r : Question),
    declared_type question = Some t ->
    convertQuestion normalize question = (w, Ok r) ->
    if category_wager (type_name t) then
      mode r = "delegate"%string
      /\ points r = parseInt10 (last (named "cost" (params t)) (price question))
      /\ (forall earlier,
            named "cost" (params t) = earlier ++ ["500"%string] -> points r = Num 500)
      /\ explanation (applyType t (after_info question))
         = last (map JString (named "theme" (params t)))
                (explanation (after_info question))
      /\ (say_writes question = [] ->
          explanation r = explanation (applyType t (after_info question)))
      /\ (forall q,
            applyType t q
            = applyType {| type_name := type_name t;
                           param := ParamArray (filter recognised (params t)) |} q)
    else mode r = type_name t.
Proof.
  intros normalize question t w r Ht H.
  destruct (convertQuestion_inv _ _ _ _ H) as (atoms & Hs & Ha & _ & ->).
  destruct (converted_points_mode normalize question atoms) as [Hp Hm].
  rewrite (after_type_declared _ _ Ht) in Hp, Hm.
  destruct (category_wager (type_name t)) eqn:E.
  - rewrite (applyType_wager _ _ E) in Hp, Hm. simpl in Hp, Hm.
    rewrite points_after_info, last_map in Hp.
    repeat split.
    + exact Hm.
    + exact Hp.
    + intros earlier He. rewrite Hp, He, last_app_default. reflexivity.
    + rewrite (applyType_wager _ _ E). reflexivity.
    + intro Hy. rewrite converted_explanation, (after_type_declared _ _ Ht).
      unfold say_writes in Hy. rewrite Ha in Hy. rewrite Hy. reflexivity.
    + intro q. rewrite (applyType_wager t q E).
      rewrite applyType_wager by exact E.
      change (params {| type_name := type_name t;
                        param := ParamArray (filter recognised (params t)) |})
        with (filter recognised (params t)).
      rewrite !named_recognised by auto. reflexivity.
  - rewrite (applyType_other _ _ E) in Hm. exact Hm.
Qed.

Lemma C3_witness :
  declared_type Samples.wager_question
  = Some {| type_name := "cat";
            param := ParamArray
                       [{| param_name := "cost"; param_text := "500" |};
                        {| param_name := "theme"; param_text := "Rivers" |};
                        {| param_name := "self"; param_text := "true" |}] |}
  /\ exists w r,
      convertQuestion Lib.posix_normalize Samples.wager_question = (w, Ok r)
      /\ mode r = "delegate"%string
      /\ points r = Num 500
      /\ explanation r = JString "Rivers".
Proof.
  split; [reflexivity|].
  eexists. eexists. split; [reflexivity|].
  pose proof (C3_declared_type_sets_mode Lib.posix_normalize Samples.wager_question
                _ _ _ eq_refl eq_refl) as H.
  cbv beta iota in H. destruct H as (Hm & _ & Hp & He & Hr & _).
  split; [exact Hm|]. split; [exact (Hp [] eq_refl)|].
  rewrite (Hr eq_refl). exact He.
Defined.

(** C9: a category wager whose type node carries no parameter array does
    not make the conversion fail. The type step sets the mode to
    [delegate] and nothing else, so the points are those of the price
    attribute and the explanation is the one the info step left. *)
Theorem C9_wager_without_parameter_array :
  forall (normalize : string -> string) (question : QuestionData) (t : TypeData),
    declared_type question = Some t ->
    category_wager (type_name t) = true ->
    (forall ps, param t <> ParamArray ps) ->
    well_shaped question = true ->
    (forall q, applyType t q = set_mode "delegate" q)
    /\ exists w r,
        convertQuestion normalize question = (w, Ok r)
        /\ mode r = "delegate"%string
        /\ points r = parseInt10 (price question)
        /\ explanation (after_type question)
           = last (info_write question) (JString EmptyString)
        /\ (say_writes question = [] ->
            explanation r = last (info_write question) (JString EmptyString)).
Proof.
  intros normalize question t Ht E Hp Hs.
  assert (Hstep : forall q, applyType t q = set_mode "delegate" q).
  { intro q. unfold applyType. unfold category_wager in E. rewrite E.
    destruct (param t) as [| p | ps] eqn:Ep; try reflexivity.
    now elim (Hp ps). }
  split; [exact Hstep|].
  assert (exists atoms, scenarioDetails question = Some atoms) as [atoms Ha].
  { unfold well_shaped in Hs. destruct (scenarioDetails question); eauto.
    rewrite andb_false_r in Hs. discriminate. }
  exists (printed atoms), (converted normalize question atoms).
  split; [apply convertQuestion_total; assumption|].
  destruct (converted_points_mode normalize question atoms) as [Hpt Hm].
  rewrite (after_type_declared _ _ Ht), Hstep in Hpt, Hm.
  assert (He : explanation (after_type question)
               = last (info_write question) (JString EmptyString)).
  { rewrite (after_type_declared _ _ Ht), Hstep. apply explanation_after_info. }
  repeat split.
  - exact Hm.
  - rewrite Hpt. apply points_after_info.
  - exact He.
  - intro Hy. rewrite converted_explanation, He.
    unfold say_writes in Hy. rewrite Ha in Hy. rewrite Hy. reflexivity.
Qed.

Lemma C9_witness :
  (forall q, applyType {| type_name := "bagcat"; param := ParamAbsent |} q
             = set_mode "delegate" q)
  /\ exists w r,
      convertQuestion Lib.posix_normalize Samples.bare_wager_question = (w, Ok r)
      /\ mode r = "delegate"%string
      /\ points r = parseInt10 "300"
      /\ explanation (after_type Samples.bare_wager_question)
         = last [JString "host note"] (JString EmptyString)
      /\ (say_writes Samples.bare_wager_question = [] ->
          explanation r = last [JString "host note"] (JString EmptyString)).
Proof.
  apply (C9_wager_without_parameter_array Lib.posix_normalize
           Samples.bare_wager_question
           {| type_name := "bagcat"; param := ParamAbsent |});
    try reflexivity.
  intros ps; discriminate.
Defined.

(* ------------------------------------------------------------------ *)
(** ** Numeric fields (C4) *)
(* ------------------------------------------------------------------ *)

Lemma parseInt10_digits (s : string) :
  parseInt10 s
  = match digit_prefix s with
    | [] => NaN
    | ds =>
      let m := digits_value ds in
      let negative :=
        match trim_start s with
        | String c _ => Ascii.eqb c "-"
        | EmptyString => false
        end in
      if (m =? 0)%Z then (if negative then NegZero else Num 0)
      else
        match round_to_double m with
        | None => Infinity negative
        | Some v => Num (if negative then (- v)%Z else v)
        end
    end.
Proof.
  unfold parseInt10, digit_prefix, unsigned.
  destruct (trim_start s) as [| c r]; [reflexivity|].
  destruct (Ascii.eqb c "-") eqn:Em; [reflexivity|].
  destruct (Ascii.eqb c "+"); reflexivity.
Qed.

(** [parseInt] answers NaN exactly when no digit can be read. *)
Lemma parseInt10_NaN (s : string) :
  parseInt10 s = NaN <-> digit_prefix s = [].
Proof.
  rewrite parseInt10_digits.
  destruct (digit_prefix s) as [| d ds]; [tauto|].
  split; [|discriminate].
  cbv zeta.
  destruct (digits_value (d :: ds) =? 0)%Z.
  - destruct (match trim_start s with String c _ => Ascii.eqb c "-"
                                 | EmptyString => false end); discriminate.
  - destruct (round_to_double (digits_value (d :: ds))); discriminate.
Qed.

(** C4, as stated, fails on a question priced [abc]: the price is not a
    well-formed integer, yet nothing is raised. *)
Lemma C4_counterexample :
  ~ (well_formed_integer (price Samples.malformed_price_question) = false ->
     exists w e,
       convertQuestion Lib.posix_normalize Samples.malformed_price_question
       = (w, Throw e)).
Proof.
  intro H. destruct (H eq_refl) as (w & e & He). discriminate He.
Qed.

(** C4 (amended): a price attribute or a category-wager cost parameter
    that is not a well-formed integer string raises nothing. A well-shaped
    question is converted all the same, and its points are what [parseInt]
    makes of the string in force (the last cost parameter, else the
    price): NaN exactly when no digit follows the leading white space and
    optional sign. *)
Theorem C4_malformed_number_raises_nothing :
  forall (normalize : string -> string) (question : QuestionData),
    (well_formed_integer (price question) = false
     \/ exists c, In c (wager_params "cost" question)
                  /\ well_formed_integer c = false) ->
    well_shaped question = true ->
    exists w r,
      convertQuestion normalize question = (w, Ok r)
      /\ points r = parseInt10 (points_source question)
      /\ (points r = NaN <-> digit_prefix (points_source question) = []).
Proof.
  intros normalize question _ Hs.
  assert (exists atoms, scenarioDetails question = Some atoms) as [atoms Ha].
  { unfold well_shaped in Hs. destruct (scenarioDetails question); eauto.
    rewrite andb_false_r in Hs. discriminate. }
  exists (printed atoms), (converted normalize question atoms).
  split; [apply convertQuestion_total; assumption|].
  destruct (converted_points_mode normalize question atoms) as [Hp _].
  rewrite points_after_type in Hp. split; [exact Hp|].
  rewrite Hp. apply parseInt10_NaN.
Qed.

Lemma C4_witness :
  exists w r,
    convertQuestion Lib.posix_normalize Samples.malformed_price_question = (w, Ok r)
    /\ points r = parseInt10 "abc"
    /\ (points r = NaN <-> digit_prefix "abc" = []).
Proof.
  apply (C4_malformed_number_raises_nothing Lib.posix_normalize
           Samples.malformed_price_question).
  - left. reflexivity.
  - reflexivity.
Defined.

(* ------------------------------------------------------------------ *)
(** ** Info block without comments (C10) *)
(* ------------------------------------------------------------------ *)

(** C10, as stated, fails on a question whose info block holds no
    comment: the block has no [comments] child, the read of its first
    element throws, and there is no resulting question whose explanation
    could be anything. *)
Lemma C10_counterexample :
  ~ (forall i rest,
        info Samples.no_comment_question = Some (i :: rest) ->
        (comments i = None \/ comments i = Some []) ->
        exists w r,
          convertQuestion Lib.posix_normalize Samples.no_comment_question
          = (w, Ok r)
          /\ forall s, explanation r <> JString s).
Proof.
  intro H.
  destruct (H _ _ eq_refl (or_introl eq_refl)) as (w & r & Hr & _).
  discriminate Hr.
Qed.

(** C10 (amended): when the info block of a question holds no comment,
    the read of [comments[0]] at line 105 throws a TypeError: nothing is
    assigned to the explanation and the conversion of the question
    returns nothing. It is the first thing to go wrong when the question
    has a [right] node. *)
Theorem C10_missing_comments_throw :
  forall (normalize : string -> string) (question : QuestionData)
         (i : InfoData) (rest : list InfoData),
    info question = Some (i :: rest) ->
    comments i = None ->
    exists e,
      convertQuestion normalize question = ([], Throw e)
      /\ (right question <> [] -> e = TypeError "0").
Proof.
  intros normalize question i rest Hi Hc. unfold convertQuestion.
  destruct (right question) as [| r0 ri].
  - exists (TypeError "answer"). split; [reflexivity | congruence].
  - exists (TypeError "0"). split; [|reflexivity].
    rewrite Hi. cbn -[bind]. rewrite !bind_ret_l. rewrite Hc. reflexivity.
Qed.

Lemma C10_witness :
  convertQuestion Lib.posix_normalize Samples.no_comment_question
  = ([], Throw (TypeError "0")).
Proof.
  destruct (C10_missing_comments_throw Lib.posix_normalize
              Samples.no_comment_question _ _ eq_refl eq_refl) as (e & He & Hr).
  rewrite He, Hr; [reflexivity | discriminate].
Defined.

(* ------------------------------------------------------------------ *)
(** ** Media paths (C6) *)
(* ------------------------------------------------------------------ *)

(** Where the text starts with the marker, or holds no [@] at all,
    [replace] does what the specification describes. *)
Lemma replace_at_strips_marker (s : string) :
  strip_leading_at s <> s \/ contains "@" s = false ->
  replace_at s = strip_leading_at s.
Proof.
  destruct s as [| c r]; [reflexivity|]. simpl.
  destruct (Ascii.eqb c "@") eqn:E; [reflexivity|].
  intros [H | H]; [congruence|]. f_equal.
  clear E c. induction r as [| d r IH]; [reflexivity|].
  simpl in H. apply orb_false_iff in H as [Hd Hr].
  simpl. rewrite Hd, (IH Hr). reflexivity.
Qed.

(** The paths of each kind are appended in scenario order. *)
Lemma media_paths_in_order (normalize : string -> string)
  (question : QuestionData) (atoms : list Atom) :
  (forall s, atoms <> [Literal s]) ->
  let r := converted normalize question atoms in
  images (task r) = media_paths normalize "image" atoms
  /\ sounds (task r) = media_paths normalize "voice" atoms
  /\ video (task r) = media_paths normalize "video" atoms.
Proof.
  intro Hn. destruct (after_type_plain question) as [_ Htask].
  assert (E : converted normalize question atoms
              = looped normalize atoms (set_type "media" (after_type question))).
  { unfold converted. destruct atoms as [| [s | m] [| b rest]]; try reflexivity.
    now elim (Hn s). }
  cbv zeta. rewrite E. unfold looped. simpl. rewrite Htask. simpl. auto.
Qed.

(** C6 on the code: for an image entry whose text is [pic@2x.png] the
    path pushed is [pic2x.png]. The text has no leading marker, so the
    path of the specification is [pic@2x.png]: [replace] removed an [@]
    that is not a leading one. *)
Theorem C6_interior_at_is_removed :
  exists r,
    convertQuestion Lib.posix_normalize Samples.interior_at_question = ([], Ok r)
    /\ images (task r) = ["pic2x.png"%string]
    /\ Lib.posix_normalize (strip_leading_at "pic@2x.png") = "pic@2x.png"%string.
Proof.
  eexists. split; [reflexivity|]. split; reflexivity.
Qed.

(* ------------------------------------------------------------------ *)
(** ** Filename recovery (C7) *)
(* ------------------------------------------------------------------ *)

Lemma read_escape_shorter (s r : string) (b : Z) :
  read_escape s = Some (b, r) -> (String.length r < String.length s)%nat.
Proof.
  destruct s as [| c [| h1 [| h2 t]]]; try discriminate. simpl.
  destruct (Ascii.eqb c "%"); [|discriminate].
  destruct (hex_value h1), (hex_value h2); try discriminate.
  intros [= _ <-]. lia.
Qed.

Lemma read_continuations_shorter (k : nat) (s r : string) (bs : list Z) :
  read_continuations k s = Some (bs, r) -> (String.length r <= String.length s)%nat.
Proof.
  revert s bs. induction k as [| k IH]; intros s bs; simpl.
  - intros [= _ <-]. lia.
  - destruct (read_escape s) as [[b t] |] eqn:E; [|discriminate].
    destruct ((128 <=? b)%Z && (b <=? 191)%Z); [|discriminate].
    destruct (read_continuations k t) as [[cs u] |] eqn:E'; [|discriminate].
    intros [= _ <-]. apply read_escape_shorter in E. apply IH in E'. lia.
Qed.

(** The loop of [decode] always ends within [String.length s] rounds. *)
Lemma decode_fuel_enough (fuel : nat) (s : string) :
  (String.length s <= fuel)%nat -> exists r, decode fuel s = Some r.
Proof.
  revert s. induction fuel as [| fuel IH]; intros s Hlen.
  - destruct s; [simpl; eauto | simpl in Hlen; lia].
  - destruct s as [| c t]; [simpl; eauto|].
    assert (Hk : forall out rest, (String.length rest <= fuel)%nat ->
              exists r, match decode fuel rest with
                        | Some (Ok u) => Some (Ok (out ++ u)%string)
                        | other => other
                        end = Some r).
    { intros out rest Hr. destruct (IH rest Hr) as [[u | e] ->]; eauto. }
    simpl in Hlen. cbn [decode].
    destruct (Ascii.eqb c "%"); [|apply Hk; lia].
    destruct (read_escape (String c t)) as [[b r1] |] eqn:E; [|eauto].
    apply read_escape_shorter in E. simpl in E.
    destruct (leading_ones b) as [| [| n2]]; [apply Hk; lia | eauto |].
    destruct (Nat.ltb 2 n2); [eauto|].
    destruct (read_continuations (S n2) r1) as [[conts r2] |] eqn:E'; [|eauto].
    apply read_continuations_shorter in E'.
    destruct (utf8_valid b conts); [apply Hk; lia | eauto].
Qed.

(** A string without [%] decodes to itself. *)
Lemma decode_without_percent (s : string) (fuel : nat) :
  contains "%" s = false -> (String.length s <= fuel)%nat ->
  decode fuel s = Some (Ok s).
Proof.
  revert fuel. induction s as [| c t IH]; intros fuel Hc Hlen;
    [destruct fuel; reflexivity|].
  simpl in Hc. apply orb_false_iff in Hc as [Hp Ht].
  destruct fuel as [| fuel]; [simpl in Hlen; lia|].
  simpl in Hlen. cbn [decode]. rewrite Hp, (IH fuel Ht) by lia. reflexivity.
Qed.

Lemma cp866_ascii_byte (b : Byte.byte) :
  is_ascii_byte b = true ->
  Lib.utf8_encode (Lib.cp866_code_point (Z.of_N (Byte.to_N b)))
  = String (ascii_of_byte b) EmptyString.
Proof. destruct b; intro H; try discriminate H; reflexivity. Qed.

(** Code page 866 reads a name made of bytes below 0x80 as ASCII. *)
Lemma cp866_ascii (buffer : list Byte.byte) :
  forallb is_ascii_byte buffer = true ->
  Lib.cp866_decode buffer = text_of_bytes buffer.
Proof.
  induction buffer as [| b buffer IH]; [reflexivity|].
  simpl forallb. intro H. apply andb_true_iff in H as [Hb Hr].
  simpl. rewrite (cp866_ascii_byte b Hb), (IH Hr). reflexivity.
Qed.

Lemma percent_byte (b : Byte.byte) :
  b <> Byte.x25 -> Ascii.eqb (ascii_of_byte b) "%" = false.
Proof. destruct b; intro H; try reflexivity. congruence. Qed.

Lemma text_without_percent (buffer : list Byte.byte) :
  ~ In Byte.x25 buffer -> contains "%" (text_of_bytes buffer) = false.
Proof.
  induction buffer as [| b buffer IH]; intro H; [reflexivity|].
  simpl. rewrite percent_byte, IH; [reflexivity | |].
  - intro Hin. apply H. right. exact Hin.
  - intros ->. apply H. left. reflexivity.
Qed.

(** C7, as stated, fails on an entry stored as [Images/a%20b.png], a
    name of plain ASCII and so valid Unicode text: the recovery turns
    the escape into a space. *)
Lemma C7_counterexample :
  ~ (forallb is_ascii_byte (Extractor.pathBuffer Samples.escaped_entry) = true ->
     Extractor.path Samples.escaped_entry
     = text_of_bytes (Extractor.pathBuffer Samples.escaped_entry) ->
     Extractor.decodedFileName Samples.escaped_entry
     = Ok (Extractor.path Samples.escaped_entry)).
Proof.
  intro H. specialize (H eq_refl eq_refl). discriminate H.
Qed.

(** C7 (amended): for an entry whose stored name is plain ASCII text,
    hence valid Unicode, and holds no percent sign, the recovery returns
    the path unchanged, whichever way the test of line 52 goes. *)
Theorem C7_ascii_path_without_percent_unchanged :
  forall entry : Extractor.Entry,
    forallb is_ascii_byte (Extractor.pathBuffer entry) = true ->
    ~ In Byte.x25 (Extractor.pathBuffer entry) ->
    Extractor.path entry = text_of_bytes (Extractor.pathBuffer entry) ->
    Extractor.decodedFileName entry = Ok (Extractor.path entry).
Proof.
  intros entry Ha Hp Hpath. unfold Extractor.decodedFileName, decodeURIComponent.
  rewrite (cp866_ascii _ Ha), <- Hpath.
  assert (Hc : contains "%" (Extractor.path entry) = false)
    by (rewrite Hpath; apply text_without_percent; exact Hp).
  destruct (Extractor.isUnicode entry);
    rewrite (decode_without_percent _ _ Hc (le_n _)); reflexivity.
Qed.

Lemma C7_witness :
  Extractor.decodedFileName Samples.clean_entry = Ok "Images/flag.png"%string.
Proof.
  apply (C7_ascii_path_without_percent_unchanged Samples.clean_entry);
    [reflexivity | | reflexivity].
  intro H. repeat (destruct H as [H | H]; [discriminate H|]). exact H.
Defined.

(** What the program makes of a name stored in UTF-8 with a character
    outside ASCII: each byte is read in code page 866. *)
Example utf8_name_is_read_as_cp866 :
  Extractor.decodedFileName Samples.accented_entry
  = Ok (bytes_string [226; 148; 156; 208; 185; 46; 112; 110; 103]%Z).
Proof. reflexivity. Qed.

(* ------------------------------------------------------------------ *)
(** ** Unknown scenario kinds (C8) *)
(* ------------------------------------------------------------------ *)

Lemma looped_unknown (normalize : string -> string) (m : MediaScenario)
  (q : Question) :
  known_kind (media_type m) = false -> looped normalize [Media m] q = q.
Proof.
  intro H. pose proof (scenarioStep_spec normalize (Media m) q) as E.
  simpl in E. rewrite (setQuestionMediaTask_unknown _ _ _ H) in E.
  inversion E. congruence.
Qed.

(** C8: an entry whose kind is none of image, voice, video, say and
    marker raises nothing: it prints one warning and leaves the question
    as it was. The entries before and after it are processed as if it
    were not there, in the loop and in the result of the conversion. *)
Theorem C8_unknown_kind_is_skipped :
  forall (normalize : string -> string) (m : MediaScenario),
    known_kind (media_type m) = false ->
    (forall q,
        setQuestionMediaTask normalize m q = ([unhandled (media_type m)], Ok q))
    /\ (forall before after q,
          scenarioLoop normalize (before ++ Media m :: after) q
          = (warnings before ++ unhandled (media_type m) :: warnings after,
             snd (scenarioLoop normalize (before ++ after) q))
          /\ is_ok (snd (scenarioLoop normalize (before ++ after) q)) = true)
    /\ (forall question before after,
          well_shaped question = true ->
          scenarioDetails question = Some (before ++ Media m :: after) ->
          convertQuestion normalize question
          = (warnings before ++ unhandled (media_type m) :: warnings after,
             Ok (looped normalize (before ++ after)
                   (set_type "media" (after_type question))))).
Proof.
  intros normalize m Hk.
  assert (Hw : forall before after,
             warnings (before ++ Media m :: after)
             = warnings before ++ unhandled (media_type m) :: warnings after).
  { intros before after. rewrite warnings_app.
    change (Media m :: after) with ([Media m] ++ after).
    rewrite warnings_app. unfold warnings at 2. simpl. rewrite Hk. reflexivity. }
  assert (Hl : forall before after q,
             looped normalize (before ++ Media m :: after) q
             = looped normalize (before ++ after) q).
  { intros before after q.
    change (Media m :: after) with ([Media m] ++ after).
    rewrite !looped_app, (looped_unknown _ _ _ Hk). reflexivity. }
  split; [intro q; apply setQuestionMediaTask_unknown; exact Hk|].
  split.
  - intros before after q. rewrite !scenarioLoop_spec, Hw, Hl. simpl. auto.
  - intros question before after Hs Ha.
    rewrite (convertQuestion_total _ _ _ Hs Ha).
    assert (Hn : forall s, before ++ Media m :: after <> [Literal s]).
    { intros s. destruct before as [| a [| b l]]; simpl; congruence. }
    unfold printed, converted.
    destruct (before ++ Media m :: after) as [| [s | m'] [| b rest]] eqn:E;
      try (now elim (Hn s)); rewrite <- E, Hw, Hl; reflexivity.
Qed.

Lemma C8_witness :
  scenarioDetails Samples.hologram_question
  = Some ([Samples.media "image" "@a.png"] ++ Media Samples.hologram
            :: [Samples.media "voice" "@b.mp3"])
  /\ convertQuestion Lib.posix_normalize Samples.hologram_question
     = ([unhandled "hologram"],
        Ok (looped Lib.posix_normalize
              [Samples.media "image" "@a.png"; Samples.media "voice" "@b.mp3"]
              (set_type "media" (after_type Samples.hologram_question)))).
Proof.
  split; [reflexivity|].
  apply (proj2 (proj2 (C8_unknown_kind_is_skipped Lib.posix_normalize
                         Samples.hologram eq_refl))
               Samples.hologram_question
               [Samples.media "image" "@a.png"]
               [Samples.media "voice" "@b.mp3"]);
    reflexivity.
Defined.

(* ------------------------------------------------------------------ *)
(** ** Failures of a run (C5) *)
(* ------------------------------------------------------------------ *)

Section RunFacts.
Import Pipeline RunSpec.
Variable normalize : string -> string.
Variable describe : exn -> string.

Lemma convertStage_conversion (env : Environment) :
  convertStage normalize describe env
  = (map Warning (mapper_warnings normalize env), conversion normalize describe env).
Proof.
  unfold convertStage, mapper_warnings, conversion.
  destruct (parseString env) as [e | pkg]; [reflexivity|].
  destruct (convertToJSON normalize pkg) as [w [p | e]]; reflexivity.
Qed.

Lemma filter_warnings (w : list string) :
  filter is_diagnostic (map Warning w) = [].
Proof. induction w as [| a w IH]; [reflexivity | exact IH]. Qed.

(** The lines the handler prints are diagnostics. *)
Lemma filter_catch (e : Error) :
  filter is_diagnostic (catch e)
  = if not_found e then [] else [Red ["Failed to parse the file: "%string; message e]].
Proof.
  unfold catch, code_is, not_found. destruct (code e) as [c |]; [|reflexivity].
  destruct (c =? "ENOENT")%string; reflexivity.
Qed.

(** The chain, step by step: it is rejected with the first rejection of
    its stages and fulfilled otherwise, whatever the cleanup does; what
    it prints on the way are warnings of the mapper. *)
Lemma promiseChain_settles (env : Environment) (unzipped : settled) :
  exists w,
    promiseChain normalize describe env unzipped
    = (map Warning w,
       match first_rejected (stages normalize describe env unzipped) with
       | Some e => Rejected e
       | None => Fulfilled
       end).
Proof.
  unfold promiseChain, stages, step, andThen.
  rewrite convertStage_conversion. simpl first_rejected.
  destruct unzipped; [|exists []; reflexivity].
  destruct (readFile env); [|exists []; reflexivity].
  destruct (conversion normalize describe env);
    [|exists (mapper_warnings normalize env); simpl; rewrite ?app_nil_r; reflexivity].
  exists (mapper_warnings normalize env).
  destruct (if renamed_exists env then rmdir env else Fulfilled);
    [|simpl; rewrite ?app_nil_r; reflexivity].
  destruct (rename env); simpl; rewrite ?app_nil_r; reflexivity.
Qed.

End RunFacts.

Import Pipeline RunSpec.

(** C5, as stated, fails on a run whose XML document is rejected by the
    parser: the failure is not one of the cleanup, a diagnostic is
    printed, but the exit status is 0. *)
Lemma C5_counterexample :
  ~ (forall f,
        first_failure Lib.posix_normalize Samples.v8_message
                      Samples.malformed_xml_run = Some f ->
        (forall e, f = CleanupFailure e -> not_found e = false) ->
        existsb is_diagnostic
                (stderr (run Lib.posix_normalize Samples.v8_message
                             Samples.malformed_xml_run)) = true
        /\ exitCode (run Lib.posix_normalize Samples.v8_message
                         Samples.malformed_xml_run) <> 0%Z).
Proof.
  intro H.
  destruct (H _ eq_refl) as [_ Hx]; [discriminate|].
  apply Hx. reflexivity.
Qed.

(** C5 (amended): a run that fails a precondition check (unsupported
    extension, missing input file) prints one diagnostic and exits with
    status 1. An error of the read stream of the archive or of the write
    stream of an entry is not caught: the process dies of it with
    status 1 and the report of the runtime, not a diagnostic of the
    handler. A run that fails otherwise before the cleanup (the Parse
    stream, reading, parsing, conversion, writing, removal, renaming)
    ends with status 0; its handler prints one diagnostic, unless the
    code of the error is ENOENT, in which case it prints none, whatever
    the step that failed. A failure of the cleanup, ENOENT or not, is
    never reported: the run ends as a successful one, with status 0 and
    no diagnostic. *)
Theorem C5_outcome_of_a_failed_run :
  forall (normalize : string -> string) (describe : exn -> string)
         (env : Environment),
    match first_failure normalize describe env with
    | Some BadExtension =>
      run normalize describe env
      = {| stderr := [Yellow ["Unsupported file extension"%string]];
           exitCode := 1 |}
    | Some MissingInput =>
      run normalize describe env
      = {| stderr := [Yellow ["Unable to locate file at"%string; zipFilePath env]];
           exitCode := 1 |}
    | Some (StreamFailure e) =>
      run normalize describe env = {| stderr := [Trace e]; exitCode := 1 |}
    | Some (StageFailure e) =>
      exitCode (run normalize describe env) = 0%Z
      /\ filter is_diagnostic (stderr (run normalize describe env))
         = if not_found e then []
           else [Red ["Failed to parse the file: "%string; message e]]
    | Some (CleanupFailure _) | None =>
      exitCode (run normalize describe env) = 0%Z
      /\ filter is_diagnostic (stderr (run normalize describe env)) = []
    end.
Proof.
  intros normalize describe env. unfold first_failure, run.
  assert (Hext : ((if (extname env =? EmptyString)%string
                   then ".siq"%string else extname env) =? ".siq")%string
                 = ((extname env =? EmptyString)%string
                    || (extname env =? ".siq")%string)).
  { destruct (extname env =? EmptyString)%string; reflexivity. }
  rewrite Hext.
  destruct ((extname env =? EmptyString)%string || (extname env =? ".siq")%string);
    [|reflexivity].
  destruct (zip_exists env); [|reflexivity].
  cbn [negb].
  destruct (unzip env) as [unzipped | e]; [|reflexivity].
  destruct (promiseChain_settles normalize describe env unzipped) as [w ->].
  destruct (first_rejected (stages normalize describe env unzipped)) as [e |].
  - cbn [stderr exitCode]. split; [reflexivity|].
    rewrite filter_app, filter_warnings, filter_catch. reflexivity.
  - destruct (first_rejected (cleanup env)); cbn [stderr exitCode];
      (split; [reflexivity | apply filter_warnings]).
Qed.

(** The ways in which the handler stays silent or not. *)
Example unreadable_archive_is_fatal :
  run Lib.posix_normalize Samples.v8_message Samples.unreadable_archive_run
  = {| stderr := [Trace {| code := Some "EACCES"%string;
                           message := "EACCES: permission denied" |}];
       exitCode := 1 |}.
Proof. reflexivity. Qed.

Example malformed_xml_is_reported :
  run Lib.posix_normalize Samples.v8_message Samples.malformed_xml_run
  = {| stderr := [Red ["Failed to parse the file: "%string;
                       "Unclosed root tag"%string]];
       exitCode := 0 |}.
Proof. reflexivity. Qed.

Example missing_content_is_silent :
  run Lib.posix_normalize Samples.v8_message Samples.missing_content_run
  = {| stderr := []; exitCode := 0 |}.
Proof. reflexivity. Qed.

Example cleanup_failure_is_silent :
  first_failure Lib.posix_normalize Samples.v8_message Samples.cleanup_denied_run
  = Some (CleanupFailure {| code := Some "EACCES"%string;
                            message := "EACCES: permission denied" |})
  /\ run Lib.posix_normalize Samples.v8_message Samples.cleanup_denied_run
     = {| stderr := []; exitCode := 0 |}.
Proof. split; reflexivity. Qed.

(* ================================================================== *)
(** * Further properties of the mapper *)
(* ================================================================== *)

Import Document.

(** ** [unWrap] *)

Lemma reduce_collects {A B} (onEntry : A -> M (retrieved B))
  (g : A -> list string) (h : A -> retrieved B) (array : list A) (acc : list B) :
  (forall e, In e array -> onEntry e = (g e, Ok (h e))) ->
  reduce onEntry array acc
  = (flat_map g array, Ok (acc ++ flat_map (fun e => items (h e)) array)).
Proof.
  revert acc. induction array as [| x rest IH]; intros acc H.
  - simpl. rewrite app_nil_r. reflexivity.
  - simpl reduce. rewrite (H x (or_introl eq_refl)), bind_ok.
    rewrite IH by (intros e He; apply H; right; exact He).
    simpl. rewrite app_assoc. destruct (h x); reflexivity.
Qed.

(** [unWrap] visits the entries from first to last: it prints what the
    callback prints for each, and collects what the callback returns, an
    array being spliced in and anything else appended. *)
Theorem unWrap_collects_in_order :
  forall (A B : Type) (onEntry : A -> M (retrieved B))
         (g : A -> list string) (h : A -> retrieved B) (array : list A),
    (forall e, In e array -> onEntry e = (g e, Ok (h e))) ->
    unWrap array onEntry
    = (flat_map g array, Ok (flat_map (fun e => items (h e)) array)).
Proof.
  intros A B onEntry g h array H. unfold unWrap.
  rewrite (reduce_collects onEntry g h array [] H). reflexivity.
Qed.

Lemma unWrap_collects_witness :
  unWrap MoreSamples.team (fun obj => ret (IsArray (author obj)))
  = ([], Ok ["Ann"%string; "Bob"%string; "Cid"%string]).
Proof.
  apply (unWrap_collects_in_order Author string
           (fun obj => ret (IsArray (author obj)))
           (fun _ => []) (fun obj => IsArray (author obj)) MoreSamples.team).
  intros e _. reflexivity.
Defined.

Lemma reduce_app {A B} (onEntry : A -> M (retrieved B)) (l1 l2 : list A)
  (acc : list B) :
  reduce onEntry (l1 ++ l2) acc
  = bind (reduce onEntry l1 acc) (reduce onEntry l2).
Proof.
  revert acc. induction l1 as [| x l1 IH]; intro acc.
  - change (reduce onEntry l2 acc = bind (ret acc) (reduce onEntry l2)).
    rewrite bind_ret_l. reflexivity.
  - rewrite <- app_comm_cons. cbn [reduce].
    destruct (onEntry x) as [w [r | e]]; [|reflexivity].
    rewrite !bind_ok. cbn [fst snd]. rewrite IH.
    destruct (reduce onEntry l1 _) as [w1 [a1 | e1]]; [|reflexivity].
    rewrite !bind_ok. cbn [fst snd]. rewrite ?bind_ok, app_assoc. reflexivity.
Qed.

(** When the callback throws on an entry, [unWrap] throws the same
    exception: the entries after it are not visited, and what was printed
    up to the exception stays printed. *)
Theorem unWrap_stops_at_first_throw :
  forall (A B : Type) (onEntry : A -> M (retrieved B))
         (g : A -> list string) (h : A -> retrieved B)
         (before after : list A) (x : A) (w : list string) (e : exn),
    (forall a, In a before -> onEntry a = (g a, Ok (h a))) ->
    onEntry x = (w, Throw e) ->
    unWrap (before ++ x :: after) onEntry = (flat_map g before ++ w, Throw e).
Proof.
  intros A B onEntry g h before after x w e Hb Hx. unfold unWrap.
  rewrite reduce_app, (reduce_collects onEntry g h before [] Hb), bind_ok.
  simpl reduce. rewrite Hx. reflexivity.
Qed.

Lemma unWrap_stops_witness :
  unWrap [Samples.hologram_question; MoreSamples.hollow_question;
          Samples.plain_question]
         (fun question =>
            q <- convertQuestion Lib.posix_normalize question;; ret (NotArray q))
  = ([unhandled "hologram"], Throw (TypeError "atom")).
Proof.
  apply (unWrap_stops_at_first_throw QuestionData Question _
           (fun q => fst (convertQuestion Lib.posix_normalize q))
           (fun q => match snd (convertQuestion Lib.posix_normalize q) with
                     | Ok r => NotArray r
                     | Throw _ => IsArray []
                     end)
           [Samples.hologram_question] [Samples.plain_question]
           MoreSamples.hollow_question [] (TypeError "atom")).
  - intros a [<- | []]. reflexivity.
  - reflexivity.
Defined.

(** ** The question callback *)

Lemma convertQuestion_is_ok (normalize : string -> string)
  (question : QuestionData) :
  is_ok (snd (convertQuestion normalize question)) = well_shaped question.
Proof.
  destruct (well_shaped question) eqn:Hs.
  - assert (exists atoms, scenarioDetails question = Some atoms) as [atoms Ha].
    { unfold well_shaped in Hs. destruct (scenarioDetails question); eauto.
      rewrite andb_false_r in Hs. discriminate. }
    rewrite (convertQuestion_total _ _ _ Hs Ha). reflexivity.
  - destruct (convertQuestion_unshaped normalize _ Hs) as (w & e & ->). reflexivity.
Qed.

(** The callback throws, and returns no question, whenever a node it
    dereferences without a test is missing: the [right] node, the
    comments of an info block, the [scenario] node, or the entries of
    the scenario. *)
Theorem convertQuestion_throws_on_missing_node :
  forall (normalize : string -> string) (question : QuestionData),
    (right question = []
     \/ (exists i rest, info question = Some (i :: rest) /\ comments i = None)
     \/ scenario question = []
     \/ (exists sc rest, scenario question = sc :: rest /\ atom sc = [])) ->
    exists w e, convertQuestion normalize question = (w, Throw e).
Proof.
  intros normalize question H. apply convertQuestion_unshaped.
  unfold well_shaped, scenarioDetails.
  destruct H as [H | [(i & rest & Hi & Hc) | [H | (sc & rest & Hs & Ha)]]].
  - rewrite H. reflexivity.
  - rewrite Hi, Hc. rewrite andb_false_r. reflexivity.
  - rewrite H. apply andb_false_r.
  - rewrite Hs, Ha. apply andb_false_r.
Qed.

Lemma convertQuestion_throws_witness :
  exists w e,
    convertQuestion Lib.posix_normalize MoreSamples.hollow_question = (w, Throw e).
Proof.
  apply (convertQuestion_throws_on_missing_node Lib.posix_normalize
           MoreSamples.hollow_question).
  right. right. left. reflexivity.
Defined.

(** The mode the type step leaves: [default] without a type node. *)
Lemma mode_after_type (question : QuestionData) :
  mode (after_type question)
  = match declared_type question with
    | None => "default"%string
    | Some t =>
      if category_wager (type_name t) then "delegate"%string else type_name t
    end.
Proof.
  unfold after_type.
  assert (H : mode (after_info question) = "default"%string).
  { unfold after_info. destruct (info question) as [[| i l] |]; try destruct (comments i);
    reflexivity. }
  destruct (declared_type question) as [t |]; [|exact H].
  destruct (category_wager (type_name t)) eqn:E.
  - rewrite (applyType_wager _ _ E). reflexivity.
  - rewrite (applyType_other _ _ E). reflexivity.
Qed.

Lemma answers_after_type (question : QuestionData) :
  answers (after_type question)
  = match right question with r0 :: _ => answer r0 | [] => [] end.
Proof.
  unfold after_type.
  assert (H : answers (after_info question)
              = match right question with r0 :: _ => answer r0 | [] => [] end).
  { unfold after_info. destruct (info question) as [[| i l] |]; try destruct (comments i);
    reflexivity. }
  destruct (declared_type question) as [t |]; [|exact H].
  destruct (applyType_keeps t (after_info question)) as (_ & _ & ->). exact H.
Qed.

(** Whatever the scenario holds, the result keeps the fields set before
    the scenario step: the answers are those of the first [right] node,
    the mode is [default] when no type is declared, and the points are
    parsed from the last cost of a category wager, else from the price. *)
Theorem scenario_leaves_header_fields :
  forall (normalize : string -> string) (question : QuestionData)
         (w : list string) (r : Question),
    convertQuestion normalize question = (w, Ok r) ->
    (exists r0 rest, right question = r0 :: rest /\ answers r = answer r0)
    /\ points r = parseInt10 (points_source question)
    /\ mode r = match declared_type question with
                | None => "default"%string
                | Some t =>
                  if category_wager (type_name t) then "delegate"%string
                  else type_name t
                end.
Proof.
  intros normalize question w r H.
  destruct (convertQuestion_inv _ _ _ _ H) as (atoms & Hs & Ha & _ & ->).
  destruct (converted_points_mode normalize question atoms) as [Hp Hm].
  rewrite Hp, Hm, points_after_type, mode_after_type.
  split; [|split; reflexivity].
  assert (Han : answers (converted normalize question atoms)
                = answers (after_type question)).
  { unfold converted. destruct atoms as [| [s | m] [| b l]]; reflexivity. }
  rewrite Han, answers_after_type.
  unfold well_shaped in Hs. destruct (right question) as [| r0 rest]; [discriminate|].
  eauto.
Qed.

Lemma scenario_leaves_header_fields_witness :
  exists r,
    convertQuestion Lib.posix_normalize MoreSamples.captioned_question
    = ([], Ok r)
    /\ answers r = ["Paris"%string] /\ points r = Num 200
    /\ mode r = "default"%string.
Proof.
  eexists. split; [reflexivity|].
  destruct (scenario_leaves_header_fields Lib.posix_normalize
              MoreSamples.captioned_question _ _ eq_refl)
    as ((r0 & rest & Hr & Ha) & Hp & Hm).
  injection Hr as <- _. split; [exact Ha|]. split; [exact Hp | exact Hm].
Defined.

(** ** The scenario step *)

Lemma converted_media (normalize : string -> string) (question : QuestionData)
  (atoms : list Atom) :
  (forall s, atoms <> [Literal s]) ->
  converted normalize question atoms
  = looped normalize atoms (set_type "media" (after_type question)).
Proof.
  intro Hn. unfold converted.
  destruct atoms as [| [s | m] [| b rest]]; try reflexivity. now elim (Hn s).
Qed.

(** In a media question the text is the last plain literal of the
    scenario, and the empty string when the scenario has none: a literal
    next to media entries is kept as a caption. *)
Theorem media_text_is_last_literal :
  forall (normalize : string -> string) (question : QuestionData)
         (atoms : list Atom) (w : list string) (r : Question),
    convertQuestion normalize question = (w, Ok r) ->
    scenarioDetails question = Some atoms ->
    (forall s, atoms <> [Literal s]) ->
    type r = "media"%string
    /\ text (task r) = last (literals atoms) EmptyString.
Proof.
  intros normalize question atoms w r H Ha Hn.
  destruct (convertQuestion_inv _ _ _ _ H) as (atoms' & Hs & Ha' & _ & ->).
  rewrite Ha in Ha'. injection Ha' as <-.
  rewrite (converted_media _ _ _ Hn).
  destruct (after_type_plain question) as [_ Htask].
  unfold looped. simpl. rewrite Htask. auto.
Qed.

Lemma media_text_witness :
  exists r,
    convertQuestion Lib.posix_normalize MoreSamples.captioned_question
    = ([], Ok r)
    /\ type r = "media"%string /\ text (task r) = "second"%string.
Proof.
  eexists. split; [reflexivity|].
  apply (media_text_is_last_literal Lib.posix_normalize
           MoreSamples.captioned_question _ _ _ eq_refl eq_refl).
  intros s; discriminate.
Defined.

(** In a media question the images, sounds and videos are the texts of
    the entries of kind image, voice and video, in scenario order, each
    without its first [@] and normalized. Where every text of a kind
    starts with the marker or holds no [@], that is the text without its
    leading marker, normalized. *)
Theorem media_paths_follow_scenario_order :
  forall (normalize : string -> string) (question : QuestionData)
         (atoms : list Atom) (w : list string) (r : Question),
    convertQuestion normalize question = (w, Ok r) ->
    scenarioDetails question = Some atoms ->
    (forall s, atoms <> [Literal s]) ->
    images (task r)
    = map (fun s => normalize (replace_at s)) (kind_texts "image" atoms)
    /\ sounds (task r)
       = map (fun s => normalize (replace_at s)) (kind_texts "voice" atoms)
    /\ video (task r)
       = map (fun s => normalize (replace_at s)) (kind_texts "video" atoms)
    /\ (forall kind,
          (forall s, In s (kind_texts kind atoms) ->
                     strip_leading_at s <> s \/ contains "@" s = false) ->
          map (fun s => normalize (replace_at s)) (kind_texts kind atoms)
          = map (fun s => normalize (strip_leading_at s)) (kind_texts kind atoms)).
Proof.
  intros normalize question atoms w r H Ha Hn.
  destruct (convertQuestion_inv _ _ _ _ H) as (atoms' & Hs & Ha' & _ & ->).
  rewrite Ha in Ha'. injection Ha' as <-.
  destruct (media_paths_in_order normalize question atoms Hn) as (Hi & Hso & Hv).
  repeat split; try assumption.
  intros kind Hclean. apply map_ext_in. intros s Hs'.
  rewrite (replace_at_strips_marker s (Hclean s Hs')). reflexivity.
Qed.

Lemma media_paths_witness :
  exists r,
    convertQuestion Lib.posix_normalize MoreSamples.captioned_question
    = ([], Ok r)
    /\ images (task r) = ["a.png"%string; "b.png"%string]
    /\ sounds (task r) = [] /\ video (task r) = [].
Proof.
  eexists. split; [reflexivity|].
  destruct (media_paths_follow_scenario_order Lib.posix_normalize
              MoreSamples.captioned_question _ _ _ eq_refl eq_refl)
    as (Hi & Hs & Hv & _).
  - intros s; discriminate.
  - split; [exact Hi|]. split; [exact Hs | exact Hv].
Defined.

(** The callback prints one warning for each entry of unknown kind, in
    scenario order, and nothing else. *)
Theorem one_warning_per_unknown_entry :
  forall (normalize : string -> string) (question : QuestionData)
         (atoms : list Atom) (w : list string) (r : Question),
    convertQuestion normalize question = (w, Ok r) ->
    scenarioDetails question = Some atoms ->
    w = warnings atoms
    /\ (Forall (fun a => match a with
                         | Media m => known_kind (media_type m) = true
                         | Literal _ => True
                         end) atoms -> w = []).
Proof.
  intros normalize question atoms w r H Ha.
  destruct (convertQuestion_inv _ _ _ _ H) as (atoms' & Hs & Ha' & -> & _).
  rewrite Ha in Ha'. injection Ha' as <-.
  assert (E : printed atoms = warnings atoms).
  { unfold printed. destruct atoms as [| [s | m] [| b rest]]; reflexivity. }
  split; [exact E|].
  intro Hall. rewrite E. clear - Hall.
  induction Hall as [| a l Hk _ IH]; [reflexivity|].
  change (a :: l) with ([a] ++ l). rewrite warnings_app, IH, app_nil_r.
  destruct a as [s | m]; [reflexivity|]. unfold warnings. simpl. rewrite Hk.
  reflexivity.
Qed.

Lemma one_warning_witness :
  fst (convertQuestion Lib.posix_normalize Samples.hologram_question)
  = [unhandled "hologram"].
Proof.
  apply (proj1 (one_warning_per_unknown_entry Lib.posix_normalize
                  Samples.hologram_question _ _ _ eq_refl eq_refl)).
Defined.

Lemma looped_marker (normalize : string -> string) (m : MediaScenario)
  (q : Question) :
  media_type m = "marker"%string -> looped normalize [Media m] q = q.
Proof.
  intro E. pose proof (scenarioStep_spec normalize (Media m) q) as H.
  simpl in H. unfold setQuestionMediaTask in H. rewrite E in H. simpl in H.
  inversion H. congruence.
Qed.

(** A marker entry is a no-op: it prints nothing, and the result is the
    one the other entries give in the media branch. *)
Theorem marker_is_ignored :
  forall (normalize : string -> string) (m : MediaScenario),
    media_type m = "marker"%string ->
    (forall q, setQuestionMediaTask normalize m q = ([], Ok q))
    /\ (forall question before after,
          well_shaped question = true ->
          scenarioDetails question = Some (before ++ Media m :: after) ->
          convertQuestion normalize question
          = (warnings (before ++ after),
             Ok (looped normalize (before ++ after)
                   (set_type "media" (after_type question))))).
Proof.
  intros normalize m E. split.
  - intro q. unfold setQuestionMediaTask. rewrite E. reflexivity.
  - intros question before after Hs Ha.
    rewrite (convertQuestion_total _ _ _ Hs Ha).
    assert (Hn : forall s, before ++ Media m :: after <> [Literal s]).
    { intros s. destruct before as [| a [| b l]]; simpl; congruence. }
    assert (Hp : printed (before ++ Media m :: after)
                 = warnings (before ++ Media m :: after)).
    { unfold printed.
      destruct (before ++ Media m :: after) as [| [s | m'] [| b rest]]; reflexivity. }
    rewrite Hp, (converted_media _ _ _ Hn).
    change (Media m :: after) with ([Media m] ++ after).
    rewrite !warnings_app, !looped_app, (looped_marker _ _ _ E).
    unfold warnings at 2. simpl. unfold known_kind. rewrite E. reflexivity.
Qed.

Lemma marker_is_ignored_witness :
  exists r,
    convertQuestion Lib.posix_normalize MoreSamples.captioned_question
    = ([], Ok r)
    /\ r = looped Lib.posix_normalize
             [Samples.media "image" "@a.png"; Literal "first";
              Samples.media "image" "@b.png"; Literal "second"]
             (set_type "media" (after_type MoreSamples.captioned_question)).
Proof.
  eexists. split.
  - apply (proj2 (marker_is_ignored Lib.posix_normalize
                    {| media_type := "marker"; media_text := EmptyString |}
                    eq_refl)
                 MoreSamples.captioned_question
                 [Samples.media "image" "@a.png"; Literal "first"]
                 [Samples.media "image" "@b.png"; Literal "second"]);
      reflexivity.
  - reflexivity.
Defined.

(** ** [parseInt] on well-formed strings *)

Lemma trim_start_plain (a : ascii) (r : string) :
  (JS.code a < 128)%Z -> is_ascii_ws a = false ->
  trim_start (String a r) = String a r.
Proof.
  intros Ha Hw. cbn [trim_start]. rewrite Hw.
  destruct r as [| b [| c r3]]; try reflexivity.
  - unfold is_ws2. replace (JS.code a =? 194)%Z with false
      by (symmetry; apply Z.eqb_neq; lia). reflexivity.
  - unfold is_ws2, is_ws3.
    replace (JS.code a =? 194)%Z with false by (symmetry; apply Z.eqb_neq; lia).
    replace (JS.code a =? 225)%Z with false by (symmetry; apply Z.eqb_neq; lia).
    replace (JS.code a =? 226)%Z with false by (symmetry; apply Z.eqb_neq; lia).
    replace (JS.code a =? 227)%Z with false by (symmetry; apply Z.eqb_neq; lia).
    replace (JS.code a =? 239)%Z with false by (symmetry; apply Z.eqb_neq; lia).
    reflexivity.
Qed.

Lemma digit_is_plain (c : ascii) :
  is_digit c = true -> (JS.code c < 128)%Z /\ is_ascii_ws c = false.
Proof.
  unfold is_digit, is_ascii_ws. intro H.
  apply andb_true_iff in H as [H1 H2].
  apply Z.leb_le in H1. apply Z.leb_le in H2. split; [lia|].
  apply orb_false_iff. split.
  - apply andb_false_iff. right. apply Z.leb_gt. lia.
  - apply Z.eqb_neq. lia.
Qed.

Lemma sign_is_plain (c : ascii) :
  Ascii.eqb c "-" || Ascii.eqb c "+" = true ->
  (JS.code c < 128)%Z /\ is_ascii_ws c = false /\ is_digit c = false.
Proof.
  intro H. apply orb_true_iff in H as [H | H]; apply Ascii.eqb_eq in H; subst c;
    repeat split; reflexivity.
Qed.

Lemma leading_digits_all (body : string) (c : ascii) (t : string) :
  all_digits body = true -> is_digit c = false ->
  leading_digits (body ++ String c t) = leading_digits body.
Proof.
  intros Hb Hc. induction body as [| d body IH]; simpl.
  - rewrite Hc. reflexivity.
  - simpl in Hb. apply andb_true_iff in Hb as [Hd Hb]. rewrite Hd, (IH Hb).
    reflexivity.
Qed.

(** A well-formed integer string starts with what [parseInt] reads. *)
Lemma well_formed_trim (s : string) :
  well_formed_integer s = true -> trim_start s = s.
Proof.
  unfold well_formed_integer, unsigned. destruct s as [| a r]; [discriminate|].
  destruct (Ascii.eqb a "-" || Ascii.eqb a "+") eqn:Es; intro H.
  - destruct (sign_is_plain a Es) as (Hc & Hw & _). apply trim_start_plain; assumption.
  - simpl in H. apply andb_true_iff in H as [Hd _].
    destruct (digit_is_plain a Hd). apply trim_start_plain; assumption.
Qed.

Lemma well_formed_body (s : string) :
  well_formed_integer s = true ->
  all_digits (unsigned s) = true /\ leading_digits (unsigned s) <> [].
Proof.
  unfold well_formed_integer. destruct (unsigned s) as [| d body] eqn:E;
    [discriminate|].
  intro H. split; [exact H|]. simpl in H. apply andb_true_iff in H as [Hd _].
  simpl. rewrite Hd. discriminate.
Qed.

Lemma parseInt10_well_formed (s : string) :
  well_formed_integer s = true ->
  parseInt10 s <> NaN
  /\ forall c t, is_digit c = false ->
                 parseInt10 (s ++ String c t) = parseInt10 s.
Proof.
  intro H. destruct (well_formed_body s H) as [Hall Hne].
  pose proof (well_formed_trim s H) as Ht.
  split.
  - rewrite parseInt10_NaN. unfold digit_prefix. rewrite Ht. exact Hne.
  - intros c t Hc.
    assert (Ht' : trim_start (s ++ String c t) = (s ++ String c t)%string).
    { destruct s as [| a r]; [discriminate H|].
      unfold well_formed_integer, unsigned in H.
      destruct (Ascii.eqb a "-" || Ascii.eqb a "+") eqn:Es.
      - destruct (sign_is_plain a Es) as (Hlt & Hw & _).
        apply (trim_start_plain a (r ++ String c t) Hlt Hw).
      - simpl in H. apply andb_true_iff in H as [Hd _].
        destruct (digit_is_plain a Hd) as [Hlt Hw].
        apply (trim_start_plain a (r ++ String c t) Hlt Hw). }
    rewrite !parseInt10_digits. unfold digit_prefix. rewrite Ht, Ht'.
    assert (Hu : unsigned (s ++ String c t) = (unsigned s ++ String c t)%string).
    { destruct s as [| a r]; [discriminate H|]. unfold unsigned. simpl.
      destruct (Ascii.eqb a "-" || Ascii.eqb a "+"); reflexivity. }
    rewrite Hu, (leading_digits_all _ _ _ Hall Hc).
    destruct s as [| a r]; [discriminate H|]. reflexivity.
Qed.

(** When the string the points are parsed from (the last cost of a
    category wager, else the price) is an optionally signed run of
    decimal digits, the points of the result are not NaN; and the same
    string followed by anything that starts with a character other than
    a digit gives the same points ([100 points] is worth 100). *)
Theorem well_formed_price_gives_a_number :
  forall (normalize : string -> string) (question : QuestionData)
         (w : list string) (r : Question),
    convertQuestion normalize question = (w, Ok r) ->
    well_formed_integer (points_source question) = true ->
    points r <> NaN
    /\ forall c t, is_digit c = false ->
                   parseInt10 (points_source question ++ String c t) = points r.
Proof.
  intros normalize question w r H Hwf.
  destruct (convertQuestion_inv _ _ _ _ H) as (atoms & Hs & Ha & _ & ->).
  destruct (converted_points_mode normalize question atoms) as [Hp _].
  rewrite Hp, points_after_type.
  exact (parseInt10_well_formed _ Hwf).
Qed.

Lemma well_formed_price_witness :
  exists r,
    convertQuestion Lib.posix_normalize Samples.wager_question = ([], Ok r)
    /\ points r <> NaN
    /\ parseInt10 "500 points" = points r.
Proof.
  eexists. split; [reflexivity|].
  destruct (well_formed_price_gives_a_number Lib.posix_normalize
              Samples.wager_question _ _ eq_refl eq_refl) as [Hn Hp].
  split; [exact Hn|]. exact (Hp " "%char "points"%string eq_refl).
Defined.

(** ** The document as a whole *)

Lemma is_ok_bind {A B} (c : M A) (k : A -> M B) :
  is_ok (snd (bind c k))
  = match snd c with
    | Ok a => is_ok (snd (k a))
    | Throw _ => false
    end.
Proof.
  destruct c as [w [a | e]]; [|reflexivity]. rewrite bind_ok. reflexivity.
Qed.

Lemma forallb_pointwise {A} (f g : A -> bool) (l : list A) :
  (forall a, f a = g a) -> forallb f l = forallb g l.
Proof.
  intro H. induction l as [| a l IH]; [reflexivity|].
  simpl. rewrite H, IH. reflexivity.
Qed.

Lemma reduce_items_is_ok {A B} (f : A -> M B) (l : list A) (acc : list B) :
  is_ok (snd (reduce (fun x => y <- f x;; ret (NotArray y)) l acc))
  = forallb (fun x => is_ok (snd (f x))) l.
Proof.
  revert acc. induction l as [| x l IH]; intro acc; [reflexivity|].
  cbn [reduce forallb]. rewrite is_ok_bind.
  destruct (f x) as [w [y | e]]; [|reflexivity].
  rewrite bind_ok. cbn [snd ret is_ok]. rewrite IH. reflexivity.
Qed.

Lemma reduce_items_inv {A B} (f : A -> M B) (l : list A) (acc out : list B)
  (w : list string) :
  reduce (fun x => y <- f x;; ret (NotArray y)) l acc = (w, Ok out) ->
  exists ys,
    out = acc ++ ys /\ Forall2 (fun x y => exists w', f x = (w', Ok y)) l ys.
Proof.
  revert acc w. induction l as [| x l IH]; intros acc w H.
  - injection H as _ <-. exists []. rewrite app_nil_r. auto.
  - cbn [reduce] in H. destruct (f x) as [w1 [y | e]] eqn:E.
    + rewrite !bind_ok in H. cbn [fst snd ret] in H. rewrite bind_ok in H.
      cbn [fst snd] in H.
      destruct (reduce _ l (acc ++ [y])) as [w2 r2] eqn:E2.
      cbn [fst snd] in H. injection H as _ ->.
      destruct (IH _ _ E2) as (ys & -> & HF).
      exists (y :: ys). rewrite <- app_assoc. split; [reflexivity|].
      constructor; eauto.
    + discriminate H.
Qed.

Section Whole.
Variable normalize : string -> string.

Lemma convertTheme_is_ok (th : ThemeData) :
  is_ok (snd (convertTheme normalize th)) = theme_shaped th.
Proof.
  unfold convertTheme, theme_shaped, first, unWrap.
  destruct (questions th) as [| qs rest]; [reflexivity|].
  rewrite bind_ret_l, is_ok_bind.
  pose proof (reduce_items_is_ok (convertQuestion normalize) (question qs) []) as H.
  rewrite (forallb_pointwise _ _ _ (convertQuestion_is_ok normalize)) in H.
  destruct (reduce _ (question qs) []) as [w [l | e]]; cbn [snd is_ok] in *;
    rewrite <- H; reflexivity.
Qed.

Lemma convertRound_is_ok (rd : RoundData) :
  is_ok (snd (convertRound normalize rd)) = round_shaped rd.
Proof.
  unfold convertRound, round_shaped, first, unWrap.
  destruct (themes rd) as [| ths rest]; [reflexivity|].
  rewrite bind_ret_l, is_ok_bind.
  pose proof (reduce_items_is_ok (convertTheme normalize) (theme ths) []) as H.
  rewrite (forallb_pointwise _ _ _ convertTheme_is_ok) in H.
  destruct (reduce _ (theme ths) []) as [w [l | e]]; cbn [snd is_ok] in *;
    rewrite <- H; reflexivity.
Qed.

End Whole.

Lemma bind_ok_inv {A B} (c : M A) (k : A -> M B) (w : list string) (b : B) :
  bind c k = (w, Ok b) ->
  exists w1 a w2, c = (w1, Ok a) /\ k a = (w2, Ok b) /\ w = w1 ++ w2.
Proof.
  destruct c as [w1 [a | e]]; [|discriminate].
  rewrite bind_ok. destruct (k a) as [w2 r] eqn:E. simpl.
  intros [= <- ->]. exists w1, a, w2. auto.
Qed.

Lemma ok_iff_is_ok {A} (c : M A) :
  (exists w a, c = (w, Ok a)) <-> is_ok (snd c) = true.
Proof.
  destruct c as [w [a | e]]; simpl.
  - split; eauto.
  - split; [intros (w' & a' & H); discriminate | discriminate].
Qed.

Section Package.
Variable normalize : string -> string.

(** The author list never throws: it is the concatenation of the
    [author] arrays of the first info block that has authors. *)
Lemma authors_collected (l : list Author) :
  unWrap l (fun obj => ret (IsArray (author obj))) = ([], Ok (flat_map author l)).
Proof.
  unfold unWrap.
  rewrite (reduce_collects (fun obj => ret (IsArray (author obj)))
             (fun _ => []) (fun obj => IsArray (author obj)) l []
             (fun e _ => eq_refl)).
  simpl. f_equal. induction l as [| a l IH]; [reflexivity | exact IH].
Qed.

Lemma convertToJSON_unfold (gamePackage : PackageData) (info : list PackageInfo) :
  pkg_info gamePackage = Some info ->
  convertToJSON normalize gamePackage
  = (rounds0 <- first (rounds gamePackage) "round";;
     gameRounds <- unWrap (round rounds0)
                     (fun round => r <- convertRound normalize round;;
                                   ret (NotArray r));;
     ret {| id := pkg_id gamePackage;
            name := pkg_name gamePackage;
            p_rounds := gameRounds;
            metadata :=
              {| version := pkg_version gamePackage;
                 createdBy := credited gamePackage;
                 difficulty := pkg_difficulty gamePackage;
                 restriction := pkg_restriction gamePackage;
                 createdAt := pkg_date gamePackage |} |}).
Proof.
  intro Hinfo. unfold convertToJSON, credited. rewrite Hinfo, bind_ret_l.
  change (fun entry : PackageInfo =>
            match authors entry with Some _ => true | None => false end)
    with has_authors.
  destruct (find has_authors info) as [[[l |]] |];
    rewrite ?authors_collected;
    try change (@pair (list string) (result (list string)) []
                      (Ok (flat_map author l)))
      with (ret (flat_map author l));
    rewrite bind_ret_l; reflexivity.
Qed.

(** Without info element the search of line 79 is a method call on
    [undefined]. *)
Lemma convertToJSON_no_info (gamePackage : PackageData) :
  pkg_info gamePackage = None ->
  convertToJSON normalize gamePackage = ([], Throw (TypeError "find")).
Proof. intro H. unfold convertToJSON. rewrite H. reflexivity. Qed.

Lemma convertTheme_inv (td : ThemeData) (w : list string) (t : Theme) :
  convertTheme normalize td = (w, Ok t) -> theme_of normalize td t.
Proof.
  unfold convertTheme, theme_of, first, unWrap. intro H.
  destruct (questions td) as [| qs rest]; [discriminate|].
  rewrite bind_ret_l in H.
  apply bind_ok_inv in H as (w1 & l & w2 & H1 & H2 & _).
  injection H2 as _ <-. simpl.
  apply reduce_items_inv in H1 as (ys & -> & HF).
  split; [reflexivity|]. exists qs, rest. split; [reflexivity | exact HF].
Qed.

Lemma convertRound_inv (rd : RoundData) (w : list string) (r : Round) :
  convertRound normalize rd = (w, Ok r) -> round_of normalize rd r.
Proof.
  unfold convertRound, round_of, first, unWrap. intro H.
  destruct (themes rd) as [| ths rest]; [discriminate|].
  rewrite bind_ret_l in H.
  apply bind_ok_inv in H as (w1 & l & w2 & H1 & H2 & _).
  injection H2 as _ <-. simpl.
  apply reduce_items_inv in H1 as (ys & -> & HF).
  split; [reflexivity|]. exists ths, rest. split; [reflexivity|].
  simpl. eapply Forall2_impl; [|exact HF].
  intros td t (w' & Ht). exact (convertTheme_inv _ _ _ Ht).
Qed.

Lemma convertToJSON_is_ok (gamePackage : PackageData) :
  is_ok (snd (convertToJSON normalize gamePackage)) = package_shaped gamePackage.
Proof.
  unfold package_shaped. destruct (pkg_info gamePackage) as [info |] eqn:Hinfo;
    [|rewrite (convertToJSON_no_info _ Hinfo); reflexivity].
  rewrite (convertToJSON_unfold _ _ Hinfo). unfold first, unWrap.
  destruct (rounds gamePackage) as [| rs rest]; [reflexivity|].
  rewrite bind_ret_l, is_ok_bind.
  pose proof (reduce_items_is_ok (convertRound normalize) (round rs) []) as H.
  rewrite (forallb_pointwise _ _ _ (convertRound_is_ok normalize)) in H.
  destruct (reduce _ (round rs) []) as [w [l | e]]; cbn [snd is_ok] in *;
    rewrite <- H; reflexivity.
Qed.

(** What a conversion that returns has gone through. *)
Lemma convertToJSON_inv (gamePackage : PackageData) (w : list string) (p : Package) :
  convertToJSON normalize gamePackage = (w, Ok p) ->
  exists info rs rest ys,
    pkg_info gamePackage = Some info
    /\ rounds gamePackage = rs :: rest
    /\ Forall2 (round_of normalize) (round rs) ys
    /\ p = {| id := pkg_id gamePackage;
              name := pkg_name gamePackage;
              p_rounds := ys;
              metadata :=
                {| version := pkg_version gamePackage;
                   createdBy := credited gamePackage;
                   difficulty := pkg_difficulty gamePackage;
                   restriction := pkg_restriction gamePackage;
                   createdAt := pkg_date gamePackage |} |}.
Proof.
  intro H. destruct (pkg_info gamePackage) as [info |] eqn:Hinfo;
    [|rewrite (convertToJSON_no_info _ Hinfo) in H; discriminate].
  rewrite (convertToJSON_unfold _ _ Hinfo) in H. unfold first, unWrap in H.
  destruct (rounds gamePackage) as [| rs rest]; [discriminate|].
  rewrite bind_ret_l in H.
  apply bind_ok_inv in H as (w1 & l & w2 & H1 & H2 & _).
  injection H2 as _ <-.
  apply reduce_items_inv in H1 as (ys & -> & HF).
  exists info, rs, rest, ys. repeat split; try reflexivity.
  eapply Forall2_impl; [|exact HF].
  intros rd r (w' & Hr). exact (convertRound_inv _ _ _ Hr).
Qed.

End Package.

(** One question on which the callback throws makes the conversion of
    the whole package throw, wherever the question stands among the
    rounds and themes of the document. *)
Theorem one_failing_question_fails_the_conversion :
  forall (normalize : string -> string) (gamePackage : PackageData)
         (rs : RoundsData) (rest : list RoundsData) (rd : RoundData)
         (ths : ThemesData) (rest' : list ThemesData) (td : ThemeData)
         (qs : QuestionsData) (rest'' : list QuestionsData) (qd : QuestionData)
         (w : list string) (e : exn),
    rounds gamePackage = rs :: rest ->
    In rd (round rs) ->
    themes rd = ths :: rest' ->
    In td (theme ths) ->
    questions td = qs :: rest'' ->
    In qd (question qs) ->
    convertQuestion normalize qd = (w, Throw e) ->
    exists w' e', convertToJSON normalize gamePackage = (w', Throw e').
Proof.
  intros normalize gamePackage rs rest rd ths rest' td qs rest'' qd w e
         Hr Hrd Ht Htd Hq Hqd Hthrow.
  assert (Hbad : package_shaped gamePackage = false).
  { unfold package_shaped. destruct (pkg_info gamePackage); [|reflexivity].
    rewrite Hr. apply not_true_is_false. intro Hall.
    rewrite forallb_forall in Hall. specialize (Hall rd Hrd).
    unfold round_shaped in Hall. rewrite Ht, forallb_forall in Hall.
    specialize (Hall td Htd). unfold theme_shaped in Hall.
    rewrite Hq, forallb_forall in Hall. specialize (Hall qd Hqd).
    rewrite <- (convertQuestion_is_ok normalize), Hthrow in Hall.
    discriminate Hall. }
  rewrite <- (convertToJSON_is_ok normalize) in Hbad.
  destruct (convertToJSON normalize gamePackage) as [w' [p | e']];
    [discriminate Hbad | eauto].
Qed.

Lemma one_failing_question_witness :
  exists w' e',
    convertToJSON Lib.posix_normalize MoreSamples.broken_pack = (w', Throw e').
Proof.
  eapply (one_failing_question_fails_the_conversion Lib.posix_normalize
            MoreSamples.broken_pack _ _ _ _ _ _ _ _ MoreSamples.hollow_question);
    [ reflexivity | left; reflexivity | reflexivity | left; reflexivity
    | reflexivity | right; left; reflexivity | reflexivity ].
Defined.

(** What the conversion returns mirrors the package: identity and
    metadata are copied, and the rounds of the first [rounds] node, their
    themes and their questions appear one for one, in document order,
    each question being what the callback returns for its node. *)
Theorem convertToJSON_keeps_document_order :
  forall (normalize : string -> string) (gamePackage : PackageData)
         (w : list string) (p : Package),
    convertToJSON normalize gamePackage = (w, Ok p) ->
    id p = pkg_id gamePackage
    /\ name p = pkg_name gamePackage
    /\ version (metadata p) = pkg_version gamePackage
    /\ difficulty (metadata p) = pkg_difficulty gamePackage
    /\ restriction (metadata p) = pkg_restriction gamePackage
    /\ createdAt (metadata p) = pkg_date gamePackage
    /\ exists rs rest,
        rounds gamePackage = rs :: rest
        /\ Forall2 (round_of normalize) (round rs) (p_rounds p).
Proof.
  intros normalize gamePackage w p H.
  destruct (convertToJSON_inv normalize _ _ _ H)
    as (info & rs & rest & ys & _ & Hr & HF & ->).
  repeat split; try reflexivity.
  exists rs, rest. split; [exact Hr | exact HF].
Qed.

Lemma convertToJSON_order_witness :
  exists w p,
    convertToJSON Lib.posix_normalize MoreSamples.signed_pack = (w, Ok p)
    /\ id p = "p1"%string
    /\ map r_name (p_rounds p) = ["Round 1"%string]
    /\ exists rs rest,
        rounds MoreSamples.signed_pack = rs :: rest
        /\ Forall2 (round_of Lib.posix_normalize) (round rs) (p_rounds p).
Proof.
  eexists. eexists. split; [reflexivity|].
  destruct (convertToJSON_keeps_document_order Lib.posix_normalize
              MoreSamples.signed_pack _ _ eq_refl)
    as (Hid & _ & _ & _ & _ & _ & Hr).
  split; [exact Hid|]. split; [reflexivity | exact Hr].
Defined.

(** The authors are optional, the info element is not. When the package
    has an info element none of whose blocks declares authors,
    [createdBy] is the empty list, and whether the conversion returns
    does not depend on what the info blocks are. When the package has no
    info element, the conversion throws a TypeError before anything
    else. *)
Theorem missing_authors_give_empty_createdBy :
  forall (normalize : string -> string) (gamePackage : PackageData),
    (forall info,
        pkg_info gamePackage = Some info ->
        (forall entry, In entry info -> authors entry = None) ->
        (forall w p, convertToJSON normalize gamePackage = (w, Ok p) ->
                     createdBy (metadata p) = [])
        /\ (forall info',
              is_ok (snd (convertToJSON normalize
                            (with_info (Some info') gamePackage)))
              = is_ok (snd (convertToJSON normalize gamePackage))))
    /\ (pkg_info gamePackage = None ->
        convertToJSON normalize gamePackage = ([], Throw (TypeError "find"))).
Proof.
  intros normalize gamePackage. split; [|apply convertToJSON_no_info].
  intros info Hinfo Hnone. split.
  - intros w p H.
    destruct (convertToJSON_inv normalize _ _ _ H)
      as (info0 & rs & rest & ys & _ & _ & _ & ->).
    simpl. unfold credited. rewrite Hinfo.
    destruct (find has_authors info) as [entry |] eqn:E; [|reflexivity].
    apply find_some in E as [Hin Hhas]. unfold has_authors in Hhas.
    rewrite (Hnone entry Hin) in Hhas. discriminate.
  - intro info'. rewrite !convertToJSON_is_ok. unfold package_shaped, with_info.
    simpl. rewrite Hinfo. reflexivity.
Qed.

Lemma missing_authors_witness :
  (exists w p,
      convertToJSON Lib.posix_normalize MoreSamples.anonymous_pack = (w, Ok p)
      /\ createdBy (metadata p) = [])
  /\ convertToJSON Lib.posix_normalize MoreSamples.bare_pack
     = ([], Throw (TypeError "find")).
Proof.
  split.
  - eexists. eexists. split; [reflexivity|].
    refine (proj1 (proj1 (missing_authors_give_empty_createdBy
                            Lib.posix_normalize MoreSamples.anonymous_pack)
                         [{| authors := None |}] eq_refl _) _ _ eq_refl).
    intros entry [<- | []]. reflexivity.
  - apply (proj2 (missing_authors_give_empty_createdBy
                    Lib.posix_normalize MoreSamples.bare_pack)).
    reflexivity.
Defined.

Lemma find_first {A} (f : A -> bool) (before after : list A) (x : A) :
  (forall a, In a before -> f a = false) -> f x = true ->
  find f (before ++ x :: after) = Some x.
Proof.
  intros Hb Hx. induction before as [| a before IH]; simpl.
  - rewrite Hx. reflexivity.
  - rewrite (Hb a (or_introl eq_refl)). apply IH.
    intros a' Ha'. apply Hb. right. exact Ha'.
Qed.

(** [createdBy] holds the names of the first info block that declares
    authors, its [author] arrays end to end in document order; the
    blocks after it are not read. *)
Theorem createdBy_flattens_first_authors_block :
  forall (normalize : string -> string) (gamePackage : PackageData)
         (before after : list PackageInfo) (entry : PackageInfo)
         (l : list Author) (w : list string) (p : Package),
    pkg_info gamePackage = Some (before ++ entry :: after) ->
    (forall e, In e before -> authors e = None) ->
    authors entry = Some l ->
    convertToJSON normalize gamePackage = (w, Ok p) ->
    createdBy (metadata p) = flat_map author l.
Proof.
  intros normalize gamePackage before after entry l w p Hinfo Hb He H.
  destruct (convertToJSON_inv normalize _ _ _ H)
    as (info0 & rs & rest & ys & _ & _ & _ & ->).
  simpl. unfold credited.
  rewrite Hinfo, (find_first has_authors before after entry).
  - rewrite He. reflexivity.
  - intros a Ha. unfold has_authors. rewrite (Hb a Ha). reflexivity.
  - unfold has_authors. rewrite He. reflexivity.
Qed.

Lemma createdBy_witness :
  exists w p,
    convertToJSON Lib.posix_normalize MoreSamples.signed_pack = (w, Ok p)
    /\ createdBy (metadata p) = ["Ann"%string; "Bob"%string; "Cid"%string].
Proof.
  eexists. eexists. split; [reflexivity|].
  eapply (createdBy_flattens_first_authors_block Lib.posix_normalize
            MoreSamples.signed_pack
            [{| authors := None |}]
            [{| authors := Some [{| author := ["Dan"%string] |}] |}]
            {| authors := Some MoreSamples.team |} MoreSamples.team);
    try reflexivity.
  intros e [<- | []]. reflexivity.
Defined.

(* ================================================================== *)
(** * Further properties of the extractor *)
(* ================================================================== *)

(** ** Filename recovery *)

Lemma contains_app (c : ascii) (a b : string) :
  contains c (a ++ b)%string = contains c a || contains c b.
Proof.
  induction a as [| d a IH]; [reflexivity|].
  simpl. rewrite IH, orb_assoc. reflexivity.
Qed.

Lemma decode_malformed (p t : string) (fuel : nat) :
  contains "%" p = false ->
  read_escape (String "%" t) = None ->
  (String.length (p ++ String "%" t) <= fuel)%nat ->
  decode fuel (p ++ String "%" t)%string = Some (Throw URIError).
Proof.
  revert fuel. induction p as [| c p IH]; intros fuel Hc He Hlen.
  - destruct fuel as [| fuel]; [simpl in Hlen; lia|].
    change (EmptyString ++ String "%" t)%string with (String "%" t).
    cbn [decode]. rewrite He. reflexivity.
  - simpl in Hc. apply orb_false_iff in Hc as [Hp Hc].
    destruct fuel as [| fuel]; [simpl in Hlen; lia|].
    simpl in Hlen. change (String c p ++ String "%" t)%string
      with (String c (p ++ String "%" t)).
    cbn [decode]. rewrite Hp, (IH fuel Hc He) by lia. reflexivity.
Qed.

(** An entry whose name, read up to its first percent sign, meets
    something else than two hexadecimal digits after it, makes the
    recovery throw a URIError, Unicode flag or not. *)
Theorem malformed_escape_throws :
  forall (entry : Extractor.Entry) (p t : string),
    (if Extractor.isUnicode entry
     then Extractor.path entry
     else Lib.cp866_decode (Extractor.pathBuffer entry))
    = (p ++ String "%" t)%string ->
    contains "%" p = false ->
    read_escape (String "%" t) = None ->
    Extractor.decodedFileName entry = Throw URIError.
Proof.
  intros entry p t Hs Hp He. unfold Extractor.decodedFileName, decodeURIComponent.
  rewrite Hs, (decode_malformed p t _ Hp He (le_n _)). reflexivity.
Qed.

Lemma malformed_escape_witness :
  Extractor.decodedFileName MoreSamples.truncated_entry = Throw URIError.
Proof.
  apply (malformed_escape_throws MoreSamples.truncated_entry
           "sale 100" ".png"); reflexivity.
Defined.

Lemma bytes_string_length (bs : list Z) :
  String.length (bytes_string bs) = List.length bs.
Proof. induction bs as [| b bs IH]; [reflexivity | simpl; now rewrite IH]. Qed.

Lemma string_app_length (a b : string) :
  String.length (a ++ b)%string = (String.length a + String.length b)%nat.
Proof. induction a as [| c a IH]; [reflexivity | simpl; now rewrite IH]. Qed.

Lemma read_escape_three (s r : string) (b : Z) :
  read_escape s = Some (b, r) -> String.length s = (3 + String.length r)%nat.
Proof.
  destruct s as [| c [| h1 [| h2 t]]]; try discriminate. simpl.
  destruct (Ascii.eqb c "%"); [|discriminate].
  destruct (hex_value h1), (hex_value h2); try discriminate.
  intros [= _ <-]. reflexivity.
Qed.

Lemma read_continuations_consumed (k : nat) (s r : string) (bs : list Z) :
  read_continuations k s = Some (bs, r) ->
  List.length bs = k /\ String.length s = (3 * k + String.length r)%nat.
Proof.
  revert s bs. induction k as [| k IH]; intros s bs; simpl.
  - intros [= <- <-]. split; [reflexivity | lia].
  - destruct (read_escape s) as [[b t] |] eqn:E; [|discriminate].
    destruct ((128 <=? b)%Z && (b <=? 191)%Z); [|discriminate].
    destruct (read_continuations k t) as [[cs u] |] eqn:E'; [|discriminate].
    intros [= <- <-]. apply read_escape_three in E.
    destruct (IH _ _ E') as [Hl Hs]. simpl. split; [now rewrite Hl | lia].
Qed.

Lemma decode_shrinks (fuel : nat) (s out : string) :
  decode fuel s = Some (Ok out) -> (String.length out <= String.length s)%nat.
Proof.
  revert s out. induction fuel as [| fuel IH]; intros s out.
  - destruct s; simpl; [intros [= <-]; simpl; lia | discriminate].
  - destruct s as [| c t]; [simpl; intros [= <-]; simpl; lia|].
    assert (Hk : forall o rest,
               match decode fuel rest with
               | Some (Ok u) => Some (Ok (o ++ u)%string)
               | other => other
               end = Some (Ok out) ->
               (String.length out <= String.length o + String.length rest)%nat).
    { intros o rest H. destruct (decode fuel rest) as [[u | e] |] eqn:E;
        try discriminate.
      injection H as <-. apply IH in E. rewrite string_app_length. lia. }
    cbn [decode].
    destruct (Ascii.eqb c "%").
    + destruct (read_escape (String c t)) as [[b r1] |] eqn:E; [|discriminate].
      apply read_escape_three in E.
      destruct (leading_ones b) as [| [| n2]] eqn:En; [| discriminate |].
      * intro H. apply Hk in H. simpl in H. lia.
      * destruct (Nat.ltb 2 n2); [discriminate|].
        destruct (read_continuations (S n2) r1) as [[conts r2] |] eqn:E';
          [|discriminate].
        destruct (read_continuations_consumed _ _ _ _ E') as [Hl Hs].
        destruct (utf8_valid b conts); [|discriminate].
        intro H. apply Hk in H. rewrite bytes_string_length in H.
        simpl List.length in H. lia.
    + intro H. apply Hk in H. simpl in H. simpl. lia.
Qed.

(** The recovered name is never longer than the name it is decoded from:
    an escape only ever shrinks. *)
Theorem recovered_name_is_not_longer :
  forall (entry : Extractor.Entry) (name : string),
    Extractor.decodedFileName entry = Ok name ->
    (String.length name
     <= String.length (if Extractor.isUnicode entry
                       then Extractor.path entry
                       else Lib.cp866_decode (Extractor.pathBuffer entry)))%nat.
Proof.
  intros entry name. unfold Extractor.decodedFileName, decodeURIComponent.
  set (s := if Extractor.isUnicode entry then _ else _).
  destruct (decode (String.length s) s) as [[out | e] |] eqn:E; try discriminate.
  intros [= <-]. exact (decode_shrinks _ _ _ E).
Qed.

Lemma recovered_name_witness :
  (String.length "Images/a b.png" <= String.length "Images/a%20b.png")%nat.
Proof.
  exact (recovered_name_is_not_longer Samples.escaped_entry
           "Images/a b.png" eq_refl).
Defined.

Lemma cp866_byte_has_no_percent (b : Byte.byte) :
  b <> Byte.x25 ->
  contains "%" (Lib.utf8_encode (Lib.cp866_code_point (Z.of_N (Byte.to_N b))))
  = false.
Proof.
  destruct b; try (intros _; vm_compute; reflexivity). congruence.
Qed.

Lemma cp866_decode_has_no_percent (buffer : list Byte.byte) :
  ~ In Byte.x25 buffer -> contains "%" (Lib.cp866_decode buffer) = false.
Proof.
  induction buffer as [| b buffer IH]; intro H; [reflexivity|].
  simpl Lib.cp866_decode. rewrite contains_app, IH, orb_false_r.
  - apply cp866_byte_has_no_percent. intros ->. apply H. left. reflexivity.
  - intro Hin. apply H. right. exact Hin.
Qed.

(** For an entry that is not flagged as Unicode and whose raw name holds
    no percent byte, the recovery cannot fail: the name is the code page
    866 reading of the bytes, untouched by the percent-decoding. *)
Theorem legacy_name_without_percent_is_cp866 :
  forall entry : Extractor.Entry,
    Extractor.isUnicode entry = false ->
    ~ In Byte.x25 (Extractor.pathBuffer entry) ->
    Extractor.decodedFileName entry
    = Ok (Lib.cp866_decode (Extractor.pathBuffer entry)).
Proof.
  intros entry Hu Hp. unfold Extractor.decodedFileName, decodeURIComponent.
  rewrite Hu.
  rewrite (decode_without_percent _ _ (cp866_decode_has_no_percent _ Hp) (le_n _)).
  reflexivity.
Qed.

Lemma legacy_name_witness :
  Extractor.decodedFileName MoreSamples.legacy_entry
  = Ok (bytes_string [208; 154; 208; 190; 209; 130; 46; 112]%Z).
Proof.
  apply (legacy_name_without_percent_is_cp866 MoreSamples.legacy_entry eq_refl).
  simpl. intros [H | [H | [H | [H | [H | []]]]]]; discriminate H.
Defined.

(** ** The entry handler *)

Section HandlerFacts.
Import Unzip.
Variable unzippedFolder : string.
Variable join : string -> string -> string.
Variable dirname : string -> string.
Variable parents : string -> list string.

Local Abbreviation assertDirectory := (Unzip.assertDirectory parents).
Local Abbreviation onEntry := (Unzip.onEntry unzippedFolder join dirname parents).
Local Abbreviation onEntries := (Unzip.onEntries unzippedFolder join dirname parents).
Local Abbreviation destination := (Unzip.destination unzippedFolder join).

Lemma includes_In (l : list string) (x : string) :
  includes l x = true <-> In x l.
Proof.
  unfold includes. rewrite existsb_exists. split.
  - intros (y & Hy & E). apply String.eqb_eq in E. subst y. exact Hy.
  - intro H. exists x. split; [exact H | apply String.eqb_refl].
Qed.

Lemma includes_not_In (l : list string) (x : string) :
  includes l x = false <-> ~ In x l.
Proof.
  rewrite <- includes_In. destruct (includes l x); split; congruence.
Qed.

Lemma created_app (a b : list call) : created (a ++ b) = created a ++ created b.
Proof. apply flat_map_app. Qed.

Lemma opened_app (a b : list call) : opened (a ++ b) = opened a ++ opened b.
Proof. apply flat_map_app. Qed.

(** What the lines 58-61 do to the state, case by case. *)
Lemma assertDirectory_cases (d : string) (st : State) :
  let st' := assertDirectory d st in
  (In d (assertedPaths st) /\ st' = st)
  \/ (~ In d (assertedPaths st) /\ In d (directories st)
      /\ st' = log (ExistsSync d) st)
  \/ (~ In d (assertedPaths st) /\ ~ In d (directories st)
      /\ directories st' = d :: parents d ++ directories st
      /\ assertedPaths st' = assertedPaths st ++ [d]
      /\ calls st' = calls st ++ [ExistsSync d; MkdirSync d]).
Proof.
  unfold Unzip.assertDirectory.
  destruct (includes (assertedPaths st) d) eqn:Ea; simpl.
  - left. split; [apply includes_In; exact Ea | reflexivity].
  - right. apply includes_not_In in Ea.
    destruct (includes (directories st) d) eqn:Ed; simpl.
    + left. split; [exact Ea|]. split; [apply includes_In; exact Ed | reflexivity].
    + right. apply includes_not_In in Ed. repeat split; try assumption.
      rewrite <- app_assoc. reflexivity.
Qed.

Lemma invariant_start (disk : list string) : invariant disk (start disk).
Proof.
  unfold invariant, start. simpl. repeat split.
  - constructor.
  - intros d [].
  - apply incl_refl.
  - intros d [].
Qed.

Lemma assertDirectory_invariant (disk : list string) (d : string) (st : State) :
  invariant disk st ->
  invariant disk (assertDirectory d st)
  /\ In d (directories (assertDirectory d st))
  /\ incl (directories st) (directories (assertDirectory d st))
  /\ opened (calls (assertDirectory d st)) = opened (calls st).
Proof.
  intros (Hnd & Hin & Hdisk & Hnew & Hcr).
  destruct (assertDirectory_cases d st) as
      [[Ha ->] | [(Ha & Hd & ->) | (Ha & Hd & Ed & Ea & Ec)]].
  - repeat split; try assumption; [apply Hin; exact Ha | apply incl_refl].
  - unfold invariant, log. simpl. rewrite flat_map_app, opened_app. simpl.
    rewrite !app_nil_r. repeat split; try assumption. apply incl_refl.
  - unfold invariant. rewrite Ed, Ea, Ec, flat_map_app, opened_app. simpl.
    rewrite app_nil_r. repeat split.
    + apply NoDup_app; [exact Hnd | repeat constructor; intros [] | ].
      intros x Hx [<- | []]. exact (Ha Hx).
    + intros x Hx. apply in_app_or in Hx as [Hx | [<- | []]].
      * right. apply in_or_app. right. apply Hin. exact Hx.
      * left. reflexivity.
    + intros x Hx. right. apply in_or_app. right. apply Hdisk. exact Hx.
    + intros x Hx Hxd. apply in_app_or in Hx as [Hx | [<- | []]].
      * exact (Hnew x Hx Hxd).
      * apply Hd. apply Hdisk. exact Hxd.
    + rewrite Hcr. reflexivity.
    + left. reflexivity.
    + intros x Hx. right. apply in_or_app. right. exact Hx.
Qed.

Lemma onEntry_inv (entry : Extractor.Entry) (st st' : State) :
  onEntry entry st = Ok st' ->
  exists f,
    destination entry = Some f
    /\ st' = log (CreateWriteStream f) (assertDirectory (dirname f) st).
Proof.
  unfold Unzip.onEntry, Unzip.destination.
  destruct (Extractor.decodedFileName entry) as [name | e]; [|discriminate].
  intros [= <-]. eauto.
Qed.

Lemma onEntries_invariant (disk : list string) (entries : list Extractor.Entry)
  (st st' : State) :
  invariant disk st ->
  onEntries entries st = Ok st' ->
  invariant disk st'
  /\ incl (directories st) (directories st')
  /\ (forall entry f, In entry entries -> destination entry = Some f ->
                      In (dirname f) (directories st'))
  /\ map Some (opened (calls st'))
     = map Some (opened (calls st)) ++ map destination entries.
Proof.
  revert st. induction entries as [| entry rest IH]; intros st Hinv H.
  - injection H as <-. split; [exact Hinv|]. split; [apply incl_refl|].
    split; [intros entry f []|]. simpl. rewrite app_nil_r. reflexivity.
  - cbn [Unzip.onEntries] in H.
    destruct (onEntry entry st) as [st1 | e] eqn:E; [|discriminate].
    apply onEntry_inv in E as (f & Hf & ->).
    destruct (assertDirectory_invariant disk (dirname f) st Hinv)
      as (Hinv1 & Hd1 & Hincl1 & Hop1).
    assert (Hinv2 : invariant disk
                      (log (CreateWriteStream f) (assertDirectory (dirname f) st))).
    { unfold invariant, log in *. simpl. rewrite flat_map_app. simpl.
      rewrite app_nil_r. exact Hinv1. }
    destruct (IH _ Hinv2 H) as (Hinv' & Hincl' & Hdirs & Hopen).
    split; [exact Hinv'|]. split; [|split].
    + intros x Hx. apply Hincl'. simpl. apply Hincl1. exact Hx.
    + intros entry' f' [<- | Hin] Hf'.
      * rewrite Hf in Hf'. injection Hf' as <-. apply Hincl'. simpl. exact Hd1.
      * exact (Hdirs entry' f' Hin Hf').
    + rewrite Hopen. unfold log. simpl. rewrite opened_app, Hop1, map_app.
      simpl. rewrite Hf, <- app_assoc. reflexivity.
Qed.

End HandlerFacts.

(** Over an extraction that handles all its entries, no directory is
    created twice, none is created that was on the disk at the start, and
    [assertedPaths] ends up being the list of the directories created,
    in the order of their creation. *)
Theorem each_directory_is_created_once :
  forall (unzippedFolder : string) (join : string -> string -> string)
         (dirname : string -> string) (parents : string -> list string)
         (disk : list string) (entries : list Extractor.Entry) (st : Unzip.State),
    Unzip.onEntries unzippedFolder join dirname parents entries (Unzip.start disk)
    = Ok st ->
    NoDup (Unzip.created (Unzip.calls st))
    /\ (forall d, In d (Unzip.created (Unzip.calls st)) -> ~ In d disk)
    /\ Unzip.assertedPaths st = Unzip.created (Unzip.calls st).
Proof.
  intros unzippedFolder join dirname parents disk entries st H.
  destruct (onEntries_invariant unzippedFolder join dirname parents disk entries
              _ _ (invariant_start disk) H)
    as ((Hnd & _ & _ & Hnew & Hcr) & _).
  unfold Unzip.created. rewrite Hcr. auto.
Qed.

(** After such an extraction the directory of every entry exists, and
    so does everything that was on the disk before. *)
Theorem every_entry_directory_exists :
  forall (unzippedFolder : string) (join : string -> string -> string)
         (dirname : string -> string) (parents : string -> list string)
         (disk : list string) (entries : list Extractor.Entry) (st : Unzip.State),
    Unzip.onEntries unzippedFolder join dirname parents entries (Unzip.start disk)
    = Ok st ->
    (forall entry f,
        In entry entries ->
        Unzip.destination unzippedFolder join entry = Some f ->
        In (dirname f) (Unzip.directories st))
    /\ incl disk (Unzip.directories st).
Proof.
  intros unzippedFolder join dirname parents disk entries st H.
  destruct (onEntries_invariant unzippedFolder join dirname parents disk entries
              _ _ (invariant_start disk) H)
    as (_ & Hincl & Hdirs & _).
  split; [exact Hdirs | exact Hincl].
Qed.

(** Such an extraction opens one write stream for each entry, in the
    order of the archive, at the folder joined with the recovered
    name. *)
Theorem one_write_stream_per_entry :
  forall (unzippedFolder : string) (join : string -> string -> string)
         (dirname : string -> string) (parents : string -> list string)
         (disk : list string) (entries : list Extractor.Entry) (st : Unzip.State),
    Unzip.onEntries unzippedFolder join dirname parents entries (Unzip.start disk)
    = Ok st ->
    map Some (Unzip.opened (Unzip.calls st))
    = map (Unzip.destination unzippedFolder join) entries.
Proof.
  intros unzippedFolder join dirname parents disk entries st H.
  destruct (onEntries_invariant unzippedFolder join dirname parents disk entries
              _ _ (invariant_start disk) H)
    as (_ & _ & _ & Hopen).
  exact Hopen.
Qed.

Lemma created_once_witness :
  exists st,
    Unzip.onEntries "out" MoreSamples.join MoreSamples.dirname
      MoreSamples.no_parents MoreSamples.archive (Unzip.start ["out/Audio"%string])
    = Ok st
    /\ Unzip.created (Unzip.calls st) = ["out/Images"%string]
    /\ NoDup (Unzip.created (Unzip.calls st))
    /\ Unzip.assertedPaths st = Unzip.created (Unzip.calls st).
Proof.
  eexists. split; [reflexivity|]. split; [reflexivity|].
  destruct (each_directory_is_created_once
              "out" MoreSamples.join MoreSamples.dirname MoreSamples.no_parents
              ["out/Audio"%string] MoreSamples.archive _ eq_refl)
    as (Hnd & _ & Ha).
  split; [exact Hnd | exact Ha].
Defined.

Lemma entry_directory_witness :
  exists st,
    Unzip.onEntries "out" MoreSamples.join MoreSamples.dirname
      MoreSamples.no_parents MoreSamples.archive (Unzip.start ["out/Audio"%string])
    = Ok st
    /\ In "out/Images"%string (Unzip.directories st)
    /\ In "out/Audio"%string (Unzip.directories st).
Proof.
  eexists. split; [reflexivity|].
  destruct (every_entry_directory_exists
              "out" MoreSamples.join MoreSamples.dirname MoreSamples.no_parents
              ["out/Audio"%string] MoreSamples.archive _ eq_refl)
    as (Hdirs & Hdisk).
  split.
  - apply (Hdirs (MoreSamples.entry_named "Images/b.png") "out/Images/b.png"%string).
    + right. left. reflexivity.
    + reflexivity.
  - apply Hdisk. left. reflexivity.
Defined.

Lemma write_stream_witness :
  exists st,
    Unzip.onEntries "out" MoreSamples.join MoreSamples.dirname
      MoreSamples.no_parents MoreSamples.archive (Unzip.start ["out/Audio"%string])
    = Ok st
    /\ map Some (Unzip.opened (Unzip.calls st))
       = [Some "out/Images/a.png"%string; Some "out/Images/b.png"%string;
          Some "out/Audio/c.mp3"%string].
Proof.
  eexists. split; [reflexivity|].
  exact (one_write_stream_per_entry
           "out" MoreSamples.join MoreSamples.dirname MoreSamples.no_parents
           ["out/Audio"%string] MoreSamples.archive _ eq_refl).
Defined.

(* ================================================================== *)
(** * Names and failures of a run *)
(* ================================================================== *)

Lemma strip_prefix_app (pattern rest : string) :
  Naming.strip_prefix pattern (pattern ++ rest)%string = Some rest.
Proof.
  induction pattern as [| a p IH]; [destruct rest; reflexivity|].
  simpl. rewrite Ascii.eqb_refl. exact IH.
Qed.

Lemma remove_first_after_stem (c : ascii) (p stem tail : string) :
  contains c stem = false ->
  Naming.remove_first (String c p) (stem ++ String c p ++ tail)%string
  = (stem ++ tail)%string.
Proof.
  intro H. induction stem as [| d stem IH].
  - change (EmptyString ++ String c p ++ tail)%string
      with (String c p ++ tail)%string.
    pose proof (strip_prefix_app (String c p) tail) as E.
    destruct (String c p ++ tail)%string eqn:Es; [discriminate Es|].
    cbn [Naming.remove_first]. rewrite E. reflexivity.
  - simpl in H. apply orb_false_iff in H as [Hd Hs].
    change (String d stem ++ String c p ++ tail)%string
      with (String d (stem ++ String c p ++ tail)).
    cbn [Naming.remove_first Naming.strip_prefix].
    rewrite Ascii.eqb_sym, Hd, (IH Hs). reflexivity.
Qed.

(** For a package file whose base name is a stem without dot followed
    by the extension, the folder of the extraction is named by the
    stem. *)
Theorem filename_is_the_stem :
  forall (stem : string),
    contains "." stem = false ->
    Naming.filename (stem ++ ".siq") ".siq" = stem.
Proof.
  intros stem H. unfold Naming.filename.
  pose proof (remove_first_after_stem "." "siq" stem EmptyString H) as E.
  simpl in E. rewrite E. clear. induction stem as [| c s IH]; [reflexivity|].
  simpl. rewrite IH. reflexivity.
Qed.

Lemma filename_witness : Naming.filename "quiz_2020.siq" ".siq" = "quiz_2020"%string.
Proof.
  apply (filename_is_the_stem "quiz_2020"). reflexivity.
Defined.

(** When the mapper throws, the run reports it: the handler prints the
    message of the exception after the warnings printed so far, since a
    thrown exception carries no code, and the process ends with
    status 0. *)
Theorem mapping_error_is_reported :
  forall (normalize : string -> string) (describe : exn -> string)
         (env : Environment) (gamePackage : PackageData)
         (w : list string) (e : exn),
    ((extname env =? EmptyString)%string || (extname env =? ".siq")%string) = true ->
    zip_exists env = true ->
    unzip env = Settled Fulfilled ->
    readFile env = Fulfilled ->
    parseString env = Parsed gamePackage ->
    convertToJSON normalize gamePackage = (w, Throw e) ->
    run normalize describe env
    = {| stderr := map Warning w
                   ++ [Red ["Failed to parse the file: "%string; describe e]];
         exitCode := 0 |}.
Proof.
  intros normalize describe env gamePackage w e Hext Hzip Hu Hr Hp Hc.
  unfold run.
  assert (Hx : ((if (extname env =? EmptyString)%string
                 then ".siq"%string else extname env) =? ".siq")%string = true).
  { destruct (extname env =? EmptyString)%string; [reflexivity|exact Hext]. }
  rewrite Hx, Hzip. cbn [negb].
  unfold promiseChain, convertStage, step, andThen.
  rewrite Hu, Hr, Hp, Hc. reflexivity.
Qed.

Lemma mapping_error_witness :
  run Lib.posix_normalize Samples.v8_message MoreSamples.broken_run
  = {| stderr :=
         [Warning (unhandled "hologram");
          Red ["Failed to parse the file: "%string;
               "Cannot read properties of undefined (reading 'atom')"%string]];
       exitCode := 0 |}.
Proof.
  apply (mapping_error_is_reported Lib.posix_normalize Samples.v8_message
           MoreSamples.broken_run MoreSamples.broken_pack
           [unhandled "hologram"] (TypeError "atom"));
    reflexivity.
Defined.
